(** * ElTetrado: structure parsing, residue grouping and DSSR import

    A shallow embedding of [eltetrado/structure.py] (parsers for the
    fixed-column PDB format and the tag-based mmCIF format, the residue
    grouper and the name resolution) and of the DSSR import of
    [eltetrado/cli.py], with the properties of the specification that
    concern them.

    Conventions.
    - A Python [str] is a [string]; its characters are read as code points
      below 256, so indices and slices count characters as Python does.
    - A Python [int] is a [Z].
    - A Python exception is a value of [exn]; code that may raise returns
      [exn + A] and errors propagate through the bind of [result].
    - A [dict] is a [gmap], a [frozenset] is a [gset]. *)

From Stdlib Require Import ZArith String Ascii.
From stdpp Require Import base option list gmap sets strings.

Local Open Scope string_scope.
Local Open Scope Z_scope.
Local Open Scope list_scope.

(** ** Python exceptions *)

Inductive exn : Type :=
  | RuntimeError (msg : string)
  | TypeError
  | ValueError
  | KeyError (key : string)
  | IndexError
  | AttributeError.

#[global] Instance exn_eq_dec : EqDecision exn.
Proof. solve_decision. Defined.

Definition result (A : Type) : Type := exn + A.

Definition raise {A} (e : exn) : result A := inl e.

#[global] Instance result_ret : MRet result := λ A x, inr x.
#[global] Instance result_bind : MBind result := λ A B f m,
  match m with
  | inl e => inl e
  | inr x => f x
  end.

Definition raises {A} (m : result A) : Prop := ∃ e, m = inl e.

(** ** Python built-ins on [str] *)

Module Py.

(** [str.isspace] on one character (code points below 256). *)
Definition isspace (c : ascii) : bool :=
  let n := N_of_ascii c in
  ((9 <=? n) && (n <=? 13) || (28 <=? n) && (n <=? 32)
   || (n =? 133) || (n =? 160))%N.

Fixpoint lstrip (s : string) : string :=
  match s with
  | String c s' => if isspace c then lstrip s' else s
  | EmptyString => EmptyString
  end.

Fixpoint rstrip (s : string) : string :=
  match s with
  | EmptyString => EmptyString
  | String c s' =>
      match rstrip s' with
      | EmptyString => if isspace c then EmptyString else String c EmptyString
      | r => String c r
      end
  end.

(** [s.strip()] *)
Definition strip (s : string) : string := rstrip (lstrip s).

(** [s[i:j]]: never raises, truncates at the end of [s]. *)
Definition slice (i j : nat) (s : string) : string :=
  substring i (j - i) s.

(** [s[i]]: raises [IndexError] past the end. *)
Definition index (i : nat) (s : string) : result ascii :=
  match String.get i s with
  | Some c => mret c
  | None => raise IndexError
  end.

(** [s.startswith(p)] *)
Definition startswith (p s : string) : bool := String.prefix p s.

(** [s.split(sep)] for a one-character separator. *)
Fixpoint split (sep : ascii) (s : string) : list string :=
  match s with
  | EmptyString => [EmptyString]
  | String c s' =>
      if decide (c = sep) then EmptyString :: split sep s'
      else match split sep s' with
           | h :: t => String c h :: t
           | [] => [String c EmptyString]
           end
  end.

(** [s.lower()] *)
Definition lower_char (c : ascii) : ascii :=
  let n := N_of_ascii c in
  if ((65 <=? n) && (n <=? 90)
      || (192 <=? n) && (n <=? 222) && negb (n =? 215))%N
  then ascii_of_N (n + 32) else c.

Fixpoint lower (s : string) : string :=
  match s with
  | EmptyString => EmptyString
  | String c s' => String (lower_char c) (lower s')
  end.

Definition digit (c : ascii) : option Z :=
  let n := N_of_ascii c in
  if ((48 <=? n) && (n <=? 57))%N then Some (Z.of_N n - 48) else None.

(** Decimal digits with single underscores between them. *)
Fixpoint digits (acc : Z) (after_digit : bool) (s : string) : option Z :=
  match s with
  | EmptyString => if after_digit then Some acc else None
  | String c s' =>
      if decide (c = "_"%char)
      then if after_digit then digits acc false s' else None
      else match digit c with
           | Some d => digits (10 * acc + d) true s'
           | None => None
           end
  end.

(** The whitespace that [int] skips around a number: that of
    [str.isspace] without the separators U+001C to U+001F, which [int]
    does not accept. *)
Definition int_space (c : ascii) : bool :=
  let n := N_of_ascii c in
  ((9 <=? n) && (n <=? 13) || (n =? 32) || (n =? 133) || (n =? 160))%N.

Fixpoint int_lstrip (s : string) : string :=
  match s with
  | String c s' => if int_space c then int_lstrip s' else s
  | EmptyString => EmptyString
  end.

Fixpoint int_rstrip (s : string) : string :=
  match s with
  | EmptyString => EmptyString
  | String c s' =>
      match int_rstrip s' with
      | EmptyString =>
          if int_space c then EmptyString else String c EmptyString
      | r => String c r
      end
  end.

(** [int(s)] for a [str]; [None] stands for [ValueError]. *)
Definition int (s : string) : option Z :=
  match int_rstrip (int_lstrip s) with
  | String "+" r => digits 0 false r
  | String "-" r => Z.opp <$> digits 0 false r
  | r => digits 0 false r
  end.

(** [dict(pairs)]: a later pair overrides an earlier one. *)
Definition dict `{Countable K} {V} (pairs : list (K * V)) : gmap K V :=
  foldl (λ m kv, <[kv.1 := kv.2]> m) ∅ pairs.

(** [zip(a, b)] stops at the shorter argument. *)
Definition zip {A B} (a : list A) (b : list B) : list (A * B) :=
  List.combine a b.

End Py.

(** ** Data model

    Modelled from the spec: the classes of [eltetrado.model]
    ([ResidueLabel], [ResidueAuth], [Atom3D], [Residue3D], [Structure3D]),
    which [structure.py] imports and constructs positionally. The fields
    and their order are those of the constructor calls in [structure.py];
    instances are compared by value. Coordinates are Python floats: the
    type [float] and the conversion [float(s)] are parameters of the
    development ([None] stands for [ValueError]). *)

Record ResidueLabel : Type := mkResidueLabel {
  label_chain : string;
  label_number : Z;
  label_name : string
}.

Record ResidueAuth : Type := mkResidueAuth {
  auth_chain : string;
  auth_number : Z;
  auth_icode : string;
  auth_name : string
}.

#[global] Instance ResidueLabel_eq_dec : EqDecision ResidueLabel.
Proof. solve_decision. Defined.
#[global] Instance ResidueAuth_eq_dec : EqDecision ResidueAuth.
Proof. solve_decision. Defined.

#[global] Instance ResidueLabel_countable : Countable ResidueLabel.
Proof.
  refine (inj_countable'
    (λ l, (label_chain l, label_number l, label_name l))
    (λ t, mkResidueLabel t.1.1 t.1.2 t.2) _).
  by intros [].
Defined.

#[global] Instance ResidueAuth_countable : Countable ResidueAuth.
Proof.
  refine (inj_countable'
    (λ a, (auth_chain a, auth_number a, auth_icode a, auth_name a))
    (λ t, mkResidueAuth t.1.1.1 t.1.1.2 t.1.2 t.2) _).
  by intros [].
Defined.

(** A key of the modification dictionary: [parse_cif] stores entries under
    a [ResidueLabel], a [ResidueAuth] or [None]. Instances of different
    classes are never equal. *)
Inductive mod_key : Type :=
  | KNone
  | KLabel (l : ResidueLabel)
  | KAuth (a : ResidueAuth).

#[global] Instance mod_key_eq_dec : EqDecision mod_key.
Proof. solve_decision. Defined.

#[global] Instance mod_key_countable : Countable mod_key.
Proof.
  refine (inj_countable'
    (λ k, match k with
          | KNone => inl ()
          | KLabel l => inr (inl l)
          | KAuth a => inr (inr a)
          end)
    (λ s, match s with
          | inl _ => KNone
          | inr (inl l) => KLabel l
          | inr (inr a) => KAuth a
          end) _).
  by intros [].
Defined.

Definition label_key (label : option ResidueLabel) : mod_key :=
  from_option KLabel KNone label.

Definition auth_key (auth : option ResidueAuth) : mod_key :=
  from_option KAuth KNone auth.

Section Structure.

Context {float : Type} `{Countable float}.
Variable py_float : string → option float.

Record Atom3D : Type := mkAtom3D {
  atom_label : option ResidueLabel;
  atom_auth : option ResidueAuth;
  atom_model : Z;
  atom_name : string;
  atom_x : float;
  atom_y : float;
  atom_z : float
}.

#[global] Instance Atom3D_eq_dec : EqDecision Atom3D.
Proof. solve_decision. Defined.

#[global] Instance Atom3D_countable : Countable Atom3D.
Proof.
  refine (inj_countable'
    (λ a, (atom_label a, atom_auth a, atom_model a, atom_name a,
           atom_x a, atom_y a, atom_z a))
    (λ t, mkAtom3D t.1.1.1.1.1.1 t.1.1.1.1.1.2 t.1.1.1.1.2 t.1.1.1.2
                   t.1.1.2 t.1.2 t.2) _).
  by intros [].
Defined.

Record Residue3D : Type := mkResidue3D {
  res_index : Z;
  res_name : string;
  res_model : Z;
  res_label : option ResidueLabel;
  res_auth : option ResidueAuth;
  res_atoms : gset Atom3D
}.

Record Structure3D : Type := mkStructure3D {
  residues : list Residue3D
}.

(** ** [get_residue_name]

    [auth in modified] and [label in modified] look up the object
    itself, [None] included; [elif auth:] is true of every instance. *)
Definition get_residue_name (auth : option ResidueAuth)
    (label : option ResidueLabel) (modified : gmap mod_key string) : string :=
  match modified !! auth_key auth with
  | Some parent => Py.lower parent
  | None =>
      match modified !! label_key label with
      | Some parent => Py.lower parent
      | None =>
          match auth with
          | Some a => auth_name a
          | None =>
              match label with
              | Some l => label_name l
              | None => "n"
              end
          end
      end
  end.

(** ** [group_atoms] *)

(** The tuple [(atom.label, atom.auth, atom.model)]. *)
Definition atom_key (atom : Atom3D)
    : option ResidueLabel * option ResidueAuth * Z :=
  (atom_label atom, atom_auth atom, atom_model atom).

(** The variables of the loop. *)
Record group_state : Type := mkGroupState {
  key_previous : option ResidueLabel * option ResidueAuth * Z;
  residue_atoms : list Atom3D;
  residues_acc : list Residue3D;
  index : Z
}.

(** The residue built from [key_previous] and [residue_atoms], as both
    the loop body and the code after the loop do. *)
Definition close_residue (modified : gmap mod_key string)
    (st : group_state) : Residue3D :=
  let label := (key_previous st).1.1 in
  let auth := (key_previous st).1.2 in
  let model := (key_previous st).2 in
  let name := get_residue_name auth label modified in
  mkResidue3D (index st) name model label auth
              (list_to_set (residue_atoms st)).

(** One iteration of [for atom in atoms[1:]]. *)
Definition group_step (modified : gmap mod_key string)
    (st : group_state) (atom : Atom3D) : group_state :=
  let key := atom_key atom in
  if decide (key = key_previous st) then
    mkGroupState (key_previous st) (residue_atoms st ++ [atom])
                 (residues_acc st) (index st)
  else
    mkGroupState key [atom]
                 (residues_acc st ++ [close_residue modified st])
                 (index st + 1).

Definition group_atoms (atoms : list Atom3D)
    (modified : gmap mod_key string) : Structure3D :=
  match atoms with
  | [] => mkStructure3D []
  | atom0 :: rest =>
      let st := foldl (group_step modified)
                      (mkGroupState (atom_key atom0) [atom0] [] 1) rest in
      mkStructure3D (residues_acc st ++ [close_residue modified st])
  end.

(** ** Parsing helpers *)

(** A [for] loop whose body may raise: the first exception ends it. *)
Fixpoint for_each {S A} (body : S → A → result S) (st : S)
    (items : list A) : result S :=
  match items with
  | [] => mret st
  | x :: items' => st' ← body st x; for_each body st' items'
  end.

(** [int(s)] and [float(s)] with their [ValueError]. *)
Definition int_of (s : string) : result Z :=
  match Py.int s with
  | Some n => mret n
  | None => raise ValueError
  end.

Definition float_of (s : string) : result float :=
  match py_float s with
  | Some x => mret x
  | None => raise ValueError
  end.

(** [d[k]] with its [KeyError]. *)
Definition getitem (d : gmap string string) (k : string) : result string :=
  match d !! k with
  | Some v => mret v
  | None => raise (KeyError k)
  end.

(** [try_parse_int]: only [ValueError] is caught, so [int(None)], a
    [TypeError], escapes. *)
Definition try_parse_int (s : option string) : result (option Z) :=
  match s with
  | None => raise TypeError
  | Some s =>
      match Py.int s with
      | Some n => mret (Some n)
      | None => mret None
      end
  end.

(** ** [parse_pdb] *)

Record pdb_state : Type := mkPdbState {
  pdb_atoms : list Atom3D;
  pdb_modified : gmap mod_key string;
  pdb_model : Z
}.

Definition str (c : ascii) : string := String c EmptyString.

(** The body of [for line in pdb.readlines()]. *)
Definition parse_pdb_line (st : pdb_state) (line : string)
    : result pdb_state :=
  if Py.startswith "MODEL" line then
    model ← int_of (Py.strip (Py.slice 10 14 line));
    mret (mkPdbState (pdb_atoms st) (pdb_modified st) model)
  else if Py.startswith "ATOM" line || Py.startswith "HETATM" line then
    alternate_location ← Py.index 16 line;
    if decide (alternate_location ≠ " "%char) then mret st
    else
      let atom_name := Py.strip (Py.slice 12 16 line) in
      let residue_name := Py.strip (Py.slice 18 20 line) in
      chain_identifier ← Py.index 21 line;
      residue_number ← int_of (Py.strip (Py.slice 22 26 line));
      insertion_code ← Py.index 26 line;
      x ← float_of (Py.strip (Py.slice 30 38 line));
      y ← float_of (Py.strip (Py.slice 38 46 line));
      z ← float_of (Py.strip (Py.slice 46 54 line));
      let auth := mkResidueAuth (str chain_identifier) residue_number
                                (str insertion_code) residue_name in
      mret (mkPdbState
              (pdb_atoms st ++
                 [mkAtom3D None (Some auth) (pdb_model st) atom_name x y z])
              (pdb_modified st) (pdb_model st))
  else if Py.startswith "MODRES" line then
    let original_name := Py.slice 12 15 line in
    chain_identifier ← Py.index 16 line;
    residue_number ← int_of (Py.strip (Py.slice 18 22 line));
    insertion_code ← Py.index 23 line;
    let standard_residue_name := Py.strip (Py.slice 24 27 line) in
    let auth := mkResidueAuth (str chain_identifier) residue_number
                              (str insertion_code) original_name in
    mret (mkPdbState (pdb_atoms st)
                     (<[KAuth auth := standard_residue_name]> (pdb_modified st))
                     (pdb_model st))
  else mret st.

Definition parse_pdb (lines : list string)
    : result (list Atom3D * gmap mod_key string) :=
  st ← for_each parse_pdb_line (mkPdbState [] ∅ 1) lines;
  mret (pdb_atoms st, pdb_modified st).

(** ** [parse_cif]

    The [mmcif] reader is an external library: what [readFile] returns
    is the input here, a list of data blocks, each a mapping from
    category names to categories ([getObj] gives [None] for a missing
    one), a category being its attribute list and its rows. *)

Record DataCategory : Type := mkDataCategory {
  getAttributeList : list string;
  getRowList : list (list string)
}.

(** [dict(zip(attributes, row))] *)
Definition row_dict_of (attributes row : list string) : gmap string string :=
  Py.dict (Py.zip attributes row).

(** The body of [for row in atom_site.getRowList()], after [row_dict] is
    built. The [RuntimeError] messages are kept without the printed row. *)
Definition parse_atom_row (row_dict : gmap string string) : result Atom3D :=
  let label_chain_name := row_dict !! "label_asym_id" in
  label_residue_number ← try_parse_int (row_dict !! "label_seq_id");
  let label_residue_name := row_dict !! "label_comp_id" in
  let auth_chain_name := row_dict !! "auth_asym_id" in
  auth_residue_number ← try_parse_int (row_dict !! "auth_seq_id");
  let auth_residue_name := row_dict !! "auth_comp_id" in
  let insertion_code := row_dict !! "pdbx_PDB_ins_code" in
  if bool_decide (label_chain_name = None ∧ auth_chain_name = None) then
    raise (RuntimeError "Cannot parse an atom line with empty chain name")
  else if bool_decide (label_residue_number = None
                       ∧ auth_residue_number = None) then
    raise (RuntimeError "Cannot parse an atom line with empty residue number")
  else if bool_decide (label_residue_name = None
                       ∧ auth_residue_name = None) then
    raise (RuntimeError "Cannot parse an atom line with empty residue name")
  else
    let label :=
      match label_chain_name, label_residue_number, label_residue_name with
      | Some c, Some n, Some r => Some (mkResidueLabel c n r)
      | _, _, _ => None
      end in
    let auth :=
      match auth_chain_name, auth_residue_number, auth_residue_name,
            insertion_code with
      | Some c, Some n, Some r, Some i => Some (mkResidueAuth c n i r)
      | _, _, _, _ => None
      end in
    model ← int_of (default "1" (row_dict !! "pdbx_PDB_model_num"));
    atom_name ← getitem row_dict "label_atom_id";
    x ← getitem row_dict "Cartn_x" ≫= float_of;
    y ← getitem row_dict "Cartn_y" ≫= float_of;
    z ← getitem row_dict "Cartn_z" ≫= float_of;
    mret (mkAtom3D label auth model atom_name x y z).

(** The body of [for row in mod_residue.getRowList()], after [row_dict]
    is built. *)
Definition parse_mod_row (modified : gmap mod_key string)
    (row_dict : gmap string string) : result (gmap mod_key string) :=
  let label_chain_name := row_dict !! "label_asym_id" in
  label_residue_number ← try_parse_int (row_dict !! "label_seq_id");
  let label_residue_name := row_dict !! "label_comp_id" in
  let auth_chain_name := row_dict !! "auth_asym_id" in
  auth_residue_number ← try_parse_int (row_dict !! "auth_seq_id");
  let auth_residue_name := row_dict !! "auth_comp_id" in
  let insertion_code := row_dict !! "PDB_ins_code" in
  let label :=
    match label_chain_name, label_residue_number, label_residue_name with
    | Some c, Some n, Some r => Some (mkResidueLabel c n r)
    | _, _, _ => None
    end in
  let auth :=
    match auth_chain_name, auth_residue_number, auth_residue_name,
          insertion_code with
    | Some c, Some n, Some r, Some i => Some (mkResidueAuth c n i r)
    | _, _, _, _ => None
    end in
  let standard_residue_name := default "n" (row_dict !! "parent_comp_id") in
  mret (<[auth_key auth := standard_residue_name]>
          (<[label_key label := standard_residue_name]> modified)).

(** [parse_cif]. The second loop zips each row of the modified-residue
    table with the attribute list of [atom_site], as the source does;
    [atom_site.getAttributeList()] on an absent table ([None]) raises
    [AttributeError]. *)
Definition parse_cif (data : list (gmap string DataCategory))
    : result (list Atom3D * gmap mod_key string) :=
  match data with
  | [] => mret ([], ∅)
  | block :: _ =>
      let atom_site := block !! "atom_site" in
      let mod_residue := block !! "pdbx_struct_mod_residue" in
      atoms ←
        match atom_site with
        | Some table =>
            for_each
              (λ (atoms : list Atom3D) row,
                 atom ← parse_atom_row
                          (row_dict_of (getAttributeList table) row);
                 mret (atoms ++ [atom]))
              [] (getRowList table)
        | None => mret []
        end;
      modified ←
        match mod_residue with
        | Some table =>
            for_each
              (λ modified row,
                 attributes ←
                   match atom_site with
                   | Some t => mret (getAttributeList t)
                   | None => raise AttributeError
                   end;
                 parse_mod_row modified (row_dict_of attributes row))
              ∅ (getRowList table)
        | None => mret ∅
        end;
      mret (atoms, modified)
  end.

(** ** [read_3d_structure]

    The open file: its lines, and what the [mmcif] reader returns for
    it. *)
Record TextIO : Type := mkTextIO {
  readlines : list string;
  readFile : list (gmap string DataCategory)
}.

Definition is_cif (cif_or_pdb : TextIO) : bool :=
  existsb (Py.startswith "_atom_site") (readlines cif_or_pdb).

Definition read_3d_structure (cif_or_pdb : TextIO) (model : Z)
    : result Structure3D :=
  '(atoms, modified) ←
    (if is_cif cif_or_pdb then parse_cif (readFile cif_or_pdb)
     else parse_pdb (readlines cif_or_pdb));
  let atoms := filter (λ atom, atom_model atom = model) atoms in
  mret (group_atoms atoms modified).

(** ** Notions used to state the properties *)

(** The maximal runs of consecutive atoms with one key, each with its
    key: the partition of an atom list that the specification of the
    grouper describes. *)
Fixpoint runs_of (atoms : list Atom3D)
    : list ((option ResidueLabel * option ResidueAuth * Z) * list Atom3D) :=
  match atoms with
  | [] => []
  | atom :: rest =>
      match runs_of rest with
      | (key, run) :: runs =>
          if decide (atom_key atom = key) then (key, atom :: run) :: runs
          else (atom_key atom, [atom]) :: (key, run) :: runs
      | [] => [(atom_key atom, [atom])]
      end
  end.

(** The residue that stands for the [i]-th run (counted from 0). *)
Definition residue_of_run (modified : gmap mod_key string) (i : nat)
    (run : (option ResidueLabel * option ResidueAuth * Z) * list Atom3D)
    : Residue3D :=
  mkResidue3D (Z.of_nat i + 1)
              (get_residue_name run.1.1.2 run.1.1.1 modified)
              run.1.2 run.1.1.1 run.1.1.2 (list_to_set run.2).

(** The key in the words of the specification of the grouper, whose
    input is of one model: the pair of the label and the auth
    identifier. *)
Definition pair_key (atom : Atom3D)
    : option ResidueLabel * option ResidueAuth :=
  (atom_label atom, atom_auth atom).

(** The maximal runs of consecutive atoms with one pair key, each with
    its key. *)
Fixpoint pair_runs_of (atoms : list Atom3D)
    : list ((option ResidueLabel * option ResidueAuth) * list Atom3D) :=
  match atoms with
  | [] => []
  | atom :: rest =>
      match pair_runs_of rest with
      | (key, run) :: runs =>
          if decide (pair_key atom = key) then (key, atom :: run) :: runs
          else (pair_key atom, [atom]) :: (key, run) :: runs
      | [] => [(pair_key atom, [atom])]
      end
  end.

(** The residue of model [model] that stands for the [i]-th run of a
    pair key (counted from 0). *)
Definition residue_of_pair_run (modified : gmap mod_key string) (model : Z)
    (i : nat)
    (run : (option ResidueLabel * option ResidueAuth) * list Atom3D)
    : Residue3D :=
  mkResidue3D (Z.of_nat i + 1)
              (get_residue_name run.1.2 run.1.1 modified)
              model run.1.1 run.1.2 (list_to_set run.2).

(** The total number of atoms over the residues of a structure. *)
Definition atom_count (structure : Structure3D) : nat :=
  sum_list ((λ residue, size (res_atoms residue)) <$> residues structure).

(** The rows of the atom table of a document, as dictionaries. *)
Definition atom_rows (data : list (gmap string DataCategory))
    : list (gmap string string) :=
  match data with
  | block :: _ =>
      match block !! "atom_site" with
      | Some table =>
          row_dict_of (getAttributeList table) <$> getRowList table
      | None => []
      end
  | [] => []
  end.

(** The model number of a row: [int(row_dict.get('pdbx_PDB_model_num', '1'))]. *)
Definition row_model (row_dict : gmap string string) : option Z :=
  Py.int (default "1" (row_dict !! "pdbx_PDB_model_num")).

(** A sequence number is absent when its column is missing or its
    content is no integer. *)
Definition number_absent (row_dict : gmap string string) (column : string)
    : Prop :=
  match row_dict !! column with
  | Some s => Py.int s = None
  | None => True
  end.

(** Some identifier field is absent under both schemes. *)
Definition field_absent_on_both_sides (row_dict : gmap string string)
    : Prop :=
  (row_dict !! "label_asym_id" = None ∧ row_dict !! "auth_asym_id" = None)
  ∨ (number_absent row_dict "label_seq_id"
     ∧ number_absent row_dict "auth_seq_id")
  ∨ (row_dict !! "label_comp_id" = None ∧ row_dict !! "auth_comp_id" = None).

(** The label scheme, or the auth scheme, is fully populated. *)
Definition label_complete (row_dict : gmap string string) : Prop :=
  is_Some (row_dict !! "label_asym_id")
  ∧ ¬ number_absent row_dict "label_seq_id"
  ∧ is_Some (row_dict !! "label_comp_id").

Definition auth_complete (row_dict : gmap string string)
    (ins_code_column : string) : Prop :=
  is_Some (row_dict !! "auth_asym_id")
  ∧ ¬ number_absent row_dict "auth_seq_id"
  ∧ is_Some (row_dict !! "auth_comp_id")
  ∧ is_Some (row_dict !! ins_code_column).

(** The rows of the modified-residue table of a document, as the
    dictionaries that [parse_cif] builds: under the column names of the
    atom table. *)
Definition mod_rows (data : list (gmap string DataCategory))
    : list (gmap string string) :=
  match data with
  | block :: _ =>
      match block !! "pdbx_struct_mod_residue", block !! "atom_site" with
      | Some mod_table, Some table =>
          row_dict_of (getAttributeList table) <$> getRowList mod_table
      | _, _ => []
      end
  | [] => []
  end.

(** One of the two sequence-number columns is missing. *)
Definition seq_column_missing (row_dict : gmap string string) : Prop :=
  row_dict !! "label_seq_id" = None ∨ row_dict !! "auth_seq_id" = None.

(** What every state of the grouping loop satisfies. *)
Definition group_inv (st : group_state) : Prop :=
  residue_atoms st ≠ []
  ∧ Forall (λ atom, atom_key atom = key_previous st) (residue_atoms st)
  ∧ index st = Z.of_nat (length (residues_acc st)) + 1.

(** An [ATOM] or [HETATM] line. *)
Definition is_atom_line (line : string) : bool :=
  Py.startswith "ATOM" line || Py.startswith "HETATM" line.

End Structure.

(** ** DSSR import ([cli.py])

    [Residue], [BasePair], [Stacking], [Structure2D] and the enumeration
    [LeontisWesthof] belong to the external library [rnapolis]: the
    residue type with its [full_name] property and the enumeration with
    its members are parameters. [dir(LeontisWesthof)] lists the member
    names and, besides them, some special attribute names ([dunder]),
    which depend on the Python version.

    The JSON document is taken with the types DSSR writes: descriptors
    and codes are strings when present. Messages sent to [logging] are
    not part of the model. *)

Record DssrPair : Type := mkDssrPair {
  pair_nt1 : option string;
  pair_nt2 : option string;
  pair_LW : option string
}.

Record DssrStack : Type := mkDssrStack {
  stack_nts_long : option string
}.

(** A dictionary with the keys ["pairs"] and ["stacks"], each read with
    [.get(key, [])]. *)
Record DssrParameters : Type := mkDssrParameters {
  dssr_pairs : list DssrPair;
  dssr_stacks : list DssrStack
}.

Record DssrModel : Type := mkDssrModel {
  dssr_model : option Z;
  dssr_parameters : option DssrParameters
}.

(** The document: its ["models"] list, and the ["pairs"] and ["stacks"]
    of the document itself, which the code reads when no model matches. *)
Record DssrJson : Type := mkDssrJson {
  dssr_models : list DssrModel;
  dssr_toplevel : DssrParameters
}.

Section Dssr.

Context {Residue LeontisWesthof Saenger StackingTopology : Type}.
Variable full_name : Residue → option string.
Variable members : gmap string LeontisWesthof.
Variable dunder : list string.

Record BasePair : Type := mkBasePair {
  bp_nt1 : Residue;
  bp_nt2 : Residue;
  bp_lw : LeontisWesthof;
  bp_saenger : option Saenger
}.

Record Stacking : Type := mkStacking {
  st_nt1 : Residue;
  st_nt2 : Residue;
  st_topology : option StackingTopology
}.

(** The first two arguments of [Structure2D(...)]; the other ten are
    empty lists and empty strings. *)
Record Structure2D : Type := mkStructure2D {
  base_pairs : list BasePair;
  stackings : list Stacking
}.

(** [lw in dir(LeontisWesthof)] *)
Definition in_dir (lw : string) : bool :=
  bool_decide (lw ∈ dunder) || bool_decide (is_Some (members !! lw)).

(** [match_dssr_lw]: [LeontisWesthof[lw]] raises [KeyError] for a name
    that is no member. *)
Definition match_dssr_lw (lw : option string)
    : result (option LeontisWesthof) :=
  match lw with
  | Some lw =>
      if in_dir lw then
        match members !! lw with
        | Some member => mret (Some member)
        | None => raise (KeyError lw)
        end
      else mret None
  | None => mret None
  end.

(** [match_dssr_name_to_residue], over [structure3d.residues]. *)
Definition match_dssr_name_to_residue (structure3d : list Residue)
    (nt_id : option string) : option Residue :=
  match nt_id with
  | Some nt_id =>
      let nt_id := List.last (Py.split ":" nt_id) "" in
      List.find (λ residue, bool_decide (full_name residue = Some nt_id))
                structure3d
  | None => None
  end.

(** The loop over [dssr.get("models", [])] with its [break]. *)
Fixpoint select_model (models : list DssrModel) (model : Z)
    (dssr : DssrParameters) : DssrParameters :=
  match models with
  | [] => dssr
  | result :: models' =>
      if decide (dssr_model result = Some model)
      then default (mkDssrParameters [] []) (dssr_parameters result)
      else select_model models' model dssr
  end.

(** The body of [for pair in dssr.get("pairs", [])]. *)
Definition pair_step (structure3d : list Residue)
    (base_pairs : list BasePair) (pair : DssrPair)
    : result (list BasePair) :=
  let nt1 := match_dssr_name_to_residue structure3d (pair_nt1 pair) in
  let nt2 := match_dssr_name_to_residue structure3d (pair_nt2 pair) in
  lw ← match_dssr_lw (pair_LW pair);
  match nt1, nt2, lw with
  | Some nt1, Some nt2, Some lw =>
      mret (base_pairs ++ [mkBasePair nt1 nt2 lw None])
  | _, _, _ => mret base_pairs
  end.

(** The body of [for i in range(1, len(nts))]. *)
Definition stack_pair_step (nts : list (option Residue))
    (stackings : list Stacking) (i : nat) : list Stacking :=
  match nts !! (i - 1)%nat, nts !! i with
  | Some (Some nt1), Some (Some nt2) =>
      stackings ++ [mkStacking nt1 nt2 None]
  | _, _ => stackings
  end.

(** The body of [for stack in dssr.get("stacks", [])]. *)
Definition stack_step (structure3d : list Residue)
    (stackings : list Stacking) (stack : DssrStack) : list Stacking :=
  let nts :=
    map (λ nt, match_dssr_name_to_residue structure3d (Some nt))
        (Py.split "," (default "" (stack_nts_long stack))) in
  foldl (stack_pair_step nts) stackings (seq 1 (length nts - 1)).

Definition read_secondary_structure_from_dssr (structure3d : list Residue)
    (model : Z) (dssr : DssrJson) : result Structure2D :=
  let dssr := select_model (dssr_models dssr) model (dssr_toplevel dssr) in
  base_pairs ← for_each (pair_step structure3d) [] (dssr_pairs dssr);
  let stackings := foldl (stack_step structure3d) [] (dssr_stacks dssr) in
  mret (mkStructure2D base_pairs stackings).

(** ** Notions used to state the properties *)

(** The resolved tokens of a stack: the list [nts] of the loop. *)
Definition stack_nts (structure3d : list Residue) (stack : DssrStack)
    : list (option Residue) :=
  map (λ nt, match_dssr_name_to_residue structure3d (Some nt))
      (Py.split "," (default "" (stack_nts_long stack))).

(** One stacking relation for each two adjacent tokens that both
    resolve, in the order of the tokens. *)
Fixpoint adjacent_resolved (nts : list (option Residue)) : list Stacking :=
  match nts with
  | [] => []
  | nt1 :: rest =>
      match nt1, rest with
      | Some nt1, Some nt2 :: _ =>
          mkStacking nt1 nt2 None :: adjacent_resolved rest
      | _, _ => adjacent_resolved rest
      end
  end.

(** The number of tokens that resolve. *)
Definition resolved_count (nts : list (option Residue)) : nat :=
  length (omap id nts).

(** The pairing relation of a declared pair whose two descriptors resolve
    and whose code names a member of the enumeration. *)
Definition resolved_pair (structure3d : list Residue) (pair : DssrPair)
    : option BasePair :=
  nt1 ← match_dssr_name_to_residue structure3d (pair_nt1 pair);
  nt2 ← match_dssr_name_to_residue structure3d (pair_nt2 pair);
  lw ← pair_LW pair ≫= (members !!.);
  Some (mkBasePair nt1 nt2 lw None).

End Dssr.

(** ** Further notions used to state the properties *)

Section MoreNotions.

Context {float : Type} `{Countable float}.
Variable py_float : string → option float.

(** The identity of a residue: the key of the run it was built from. *)
Definition residue_key (residue : @Residue3D float _ _)
    : option ResidueLabel * option ResidueAuth * Z :=
  (res_label residue, res_auth residue, res_model residue).

(** A residue with its index moved up by [n]. *)
Definition shift_index (n : nat) (residue : @Residue3D float _ _)
    : @Residue3D float _ _ :=
  mkResidue3D (res_index residue + Z.of_nat n) (res_name residue)
              (res_model residue) (res_label residue) (res_auth residue)
              (res_atoms residue).

(** What the parser chosen by [is_cif] returns for a file. *)
Definition parse_file (cif_or_pdb : TextIO)
    : result (list (@Atom3D float) * gmap mod_key string) :=
  if is_cif cif_or_pdb then parse_cif py_float (readFile cif_or_pdb)
  else parse_pdb py_float (readlines cif_or_pdb).

(** An [ATOM] or [HETATM] line with a blank alternate-location
    indicator: a line that gives an atom. *)
Definition gives_atom (line : string) : bool :=
  is_atom_line line && bool_decide (String.get 16 line = Some " "%char).

(** The atom that [parse_pdb] reads from a line, its model number
    aside. *)
Definition atom_of_line (line : string) (atom : @Atom3D float) : Prop :=
  atom_label atom = None
  ∧ atom_name atom = Py.strip (Py.slice 12 16 line)
  ∧ py_float (Py.strip (Py.slice 30 38 line)) = Some (atom_x atom)
  ∧ py_float (Py.strip (Py.slice 38 46 line)) = Some (atom_y atom)
  ∧ py_float (Py.strip (Py.slice 46 54 line)) = Some (atom_z atom)
  ∧ ∃ chain number icode,
      String.get 21 line = Some chain
      ∧ Py.int (Py.strip (Py.slice 22 26 line)) = Some number
      ∧ String.get 26 line = Some icode
      ∧ atom_auth atom
        = Some (mkResidueAuth (str chain) number (str icode)
                              (Py.strip (Py.slice 18 20 line))).

(** The model number that a [MODEL] line sets. *)
Definition model_of_line (line : string) : option Z :=
  if Py.startswith "MODEL" line
  then Py.int (Py.strip (Py.slice 10 14 line)) else None.

(** What an atom takes from its row besides the identifiers. *)
Definition atom_of_row (row_dict : gmap string string)
    (atom : @Atom3D float) : Prop :=
  row_model row_dict = Some (atom_model atom)
  ∧ row_dict !! "label_atom_id" = Some (atom_name atom)
  ∧ row_dict !! "Cartn_x" ≫= py_float = Some (atom_x atom)
  ∧ row_dict !! "Cartn_y" ≫= py_float = Some (atom_y atom)
  ∧ row_dict !! "Cartn_z" ≫= py_float = Some (atom_z atom).

End MoreNotions.

(** ** Concrete inputs for the examples

    In the examples coordinates are integers: [float] is read as [Z] and
    [float(s)] as [int(s)], which is what Python's [float] gives on the
    decimal integers used here. *)

Definition example_auth : ResidueAuth := mkResidueAuth "A" 1 " " "G".

Definition example_atom_model1 : @Atom3D Z :=
  mkAtom3D None (Some example_auth) 1 "P" 0 0 0.

Definition example_atom_model2 : @Atom3D Z :=
  mkAtom3D None (Some example_auth) 2 "P" 0 0 0.

Definition example_atom_op1 : @Atom3D Z :=
  mkAtom3D None (Some example_auth) 1 "OP1" 1 0 0.

(** A document in which no row has a complete scheme. The atom row is a
    water molecule: its label sequence number is the null marker, and the
    table has neither the auth residue name nor the insertion code. The
    row of the modified-residue table has the same shape; the two tables
    name their first five columns alike. *)
Definition example_incomplete_cif : list (gmap string DataCategory) :=
  [ {[ "atom_site" :=
         mkDataCategory
           ["label_asym_id"; "label_seq_id"; "label_comp_id";
            "auth_asym_id"; "auth_seq_id";
            "label_atom_id"; "Cartn_x"; "Cartn_y"; "Cartn_z"]
           [["B"; "."; "HOH"; "A"; "101"; "O"; "1"; "2"; "3"]];
       "pdbx_struct_mod_residue" :=
         mkDataCategory
           ["label_asym_id"; "label_seq_id"; "label_comp_id";
            "auth_asym_id"; "auth_seq_id"]
           [["B"; "."; "PSU"; "A"; "5"]] ]} ].

(** An atom table without the column [label_seq_id], the auth scheme
    being complete. *)
Definition example_no_label_seq_cif : list (gmap string DataCategory) :=
  [ {[ "atom_site" :=
         mkDataCategory
           ["label_asym_id"; "label_comp_id";
            "auth_asym_id"; "auth_seq_id"; "auth_comp_id";
            "pdbx_PDB_ins_code"; "label_atom_id";
            "Cartn_x"; "Cartn_y"; "Cartn_z"]
           [["A"; "G"; "A"; "1"; "G"; "?"; "P"; "1"; "2"; "3"]] ]} ].

(** A complete atom table: two atoms of one residue in model 1 and one
    atom in model 2. *)
Definition example_cif : TextIO :=
  mkTextIO
    ["data_example"; "loop_"; "_atom_site.label_asym_id"]
    [ {[ "atom_site" :=
           mkDataCategory
             ["label_asym_id"; "label_seq_id"; "label_comp_id";
              "auth_asym_id"; "auth_seq_id"; "auth_comp_id";
              "pdbx_PDB_ins_code"; "pdbx_PDB_model_num"; "label_atom_id";
              "Cartn_x"; "Cartn_y"; "Cartn_z"]
             [["A"; "1"; "G"; "A"; "1"; "G"; "?"; "1"; "P"; "1"; "2"; "3"];
              ["A"; "1"; "G"; "A"; "1"; "G"; "?"; "1"; "OP1"; "2"; "2"; "3"];
              ["A"; "1"; "G"; "A"; "1"; "G"; "?"; "2"; "P"; "1"; "2"; "4"]] ]} ].



(** An atom line with a blank indicator and a [MODRES] line for the same
    residue. *)
Definition example_atom_line : string :=
  "HETATM    1  P   PSU A   5           1       2       3".

Definition example_modres_line : string :=
  "MODRES 1ABC PSU A    5    U  PSEUDOURIDINE".

(** The members of the enumeration [LeontisWesthof] of [rnapolis], and
    the special names that [dir] lists for an enumeration in every
    version of Python. *)
Inductive example_LeontisWesthof : Type :=
  | cWW | cWH | cWS | cHW | cHH | cHS | cSW | cSH | cSS
  | tWW | tWH | tWS | tHW | tHH | tHS | tSW | tSH | tSS.

Definition example_members : gmap string example_LeontisWesthof :=
  list_to_map
    [("cWW", cWW); ("cWH", cWH); ("cWS", cWS); ("cHW", cHW); ("cHH", cHH);
     ("cHS", cHS); ("cSW", cSW); ("cSH", cSH); ("cSS", cSS); ("tWW", tWW);
     ("tWH", tWH); ("tWS", tWS); ("tHW", tHW); ("tHH", tHH); ("tHS", tHS);
     ("tSW", tSW); ("tSH", tSH); ("tSS", tSS)].

Definition example_dunder : list string :=
  ["__class__"; "__doc__"; "__members__"; "__module__"].

(** Residues stand for themselves by their full name. *)
Definition example_full_name (residue : string) : option string :=
  Some residue.

Definition example_structure : list string := ["1.A"; "1.G"].

Definition example_dssr_bad_code : DssrJson :=
  mkDssrJson
    [mkDssrModel (Some 1)
       (Some (mkDssrParameters
                [mkDssrPair (Some "A:1.A") (Some "A:1.G") (Some "__class__");
                 mkDssrPair (Some "A:1.A") (Some "A:1.G") (Some "cWW")]
                []))]
    (mkDssrParameters [] []).

Definition example_stack : DssrStack :=
  mkDssrStack (Some "A:1.A,A:9.X,A:1.G").

Definition example_stack_resolved : DssrStack :=
  mkDssrStack (Some "A:1.A,A:1.G").



(** An atom table without any chain column. *)
Definition example_no_chain_cif : list (gmap string DataCategory) :=
  [ {[ "atom_site" :=
         mkDataCategory
           ["label_seq_id"; "label_comp_id"; "auth_seq_id"; "auth_comp_id";
            "label_atom_id"; "Cartn_x"; "Cartn_y"; "Cartn_z"]
           [["1"; "G"; "1"; "G"; "P"; "1"; "2"; "3"]] ]} ].

(** The residues that the atoms above make up when each is alone. *)
Definition example_residue : @Residue3D Z _ _ :=
  mkResidue3D 1 "G" 1 None (Some example_auth)
              (list_to_set [example_atom_model1]).

Definition example_residue_model2 : @Residue3D Z _ _ :=
  mkResidue3D 2 "G" 2 None (Some example_auth)
              (list_to_set [example_atom_model2]).

(** A [MODEL] line, a line that the parser does not look at, and an atom
    line that ends before its alternate-location indicator. *)
Definition example_model_line : string := "MODEL        2".

Definition example_remark_line : string := "REMARK 465 MISSING RESIDUES".

Definition example_short_line : string := "ATOM      1  P".

(** The two tables of [example_incomplete_cif], and a block that has the
    second one only. *)
Definition example_water_table : DataCategory :=
  mkDataCategory
    ["label_asym_id"; "label_seq_id"; "label_comp_id";
     "auth_asym_id"; "auth_seq_id";
     "label_atom_id"; "Cartn_x"; "Cartn_y"; "Cartn_z"]
    [["B"; "."; "HOH"; "A"; "101"; "O"; "1"; "2"; "3"]].

Definition example_water_mod_table : DataCategory :=
  mkDataCategory
    ["label_asym_id"; "label_seq_id"; "label_comp_id";
     "auth_asym_id"; "auth_seq_id"]
    [["B"; "."; "PSU"; "A"; "5"]].

Definition example_water_block : gmap string DataCategory :=
  {[ "atom_site" := example_water_table;
     "pdbx_struct_mod_residue" := example_water_mod_table ]}.

Definition example_mod_only_block : gmap string DataCategory :=
  {[ "pdbx_struct_mod_residue" := example_water_mod_table ]}.

(** A row of a modified-residue table read under column names that have
    the insertion code and the parent code. *)
Definition example_mod_row : gmap string string :=
  row_dict_of
    ["label_asym_id"; "label_seq_id"; "label_comp_id";
     "auth_asym_id"; "auth_seq_id"; "auth_comp_id";
     "PDB_ins_code"; "parent_comp_id"]
    ["A"; "5"; "PSU"; "A"; "5"; "PSU"; "?"; "U"].

(** A payload whose model 1 declares one pair and one stack, and a
    payload whose second pair has a special name for its code. *)
Definition example_dssr : DssrJson :=
  mkDssrJson
    [mkDssrModel (Some 1)
       (Some (mkDssrParameters
                [mkDssrPair (Some "A:1.A") (Some "A:1.G") (Some "cWW")]
                [example_stack_resolved]))]
    (mkDssrParameters [] []).

Definition example_dssr_late_bad_code : DssrJson :=
  mkDssrJson
    [mkDssrModel (Some 1)
       (Some (mkDssrParameters
                [mkDssrPair (Some "A:1.A") (Some "A:1.G") (Some "cWW");
                 mkDssrPair (Some "A:1.A") (Some "A:1.G") (Some "__doc__")]
                []))]
    (mkDssrParameters [] []).

(** An atom table with two rows that differ in their serial number only,
    a column that the parser does not read. *)
Definition example_duplicate_cif : TextIO :=
  mkTextIO
    ["data_example"; "loop_"; "_atom_site.id"]
    [ {[ "atom_site" :=
           mkDataCategory
             ["id"; "label_asym_id"; "label_seq_id"; "label_comp_id";
              "auth_asym_id"; "auth_seq_id"; "auth_comp_id";
              "pdbx_PDB_ins_code"; "pdbx_PDB_model_num"; "label_atom_id";
              "Cartn_x"; "Cartn_y"; "Cartn_z"]
             [["1"; "A"; "1"; "G"; "A"; "1"; "G"; "?"; "1"; "P";
               "1"; "2"; "3"];
              ["2"; "A"; "1"; "G"; "A"; "1"; "G"; "?"; "1"; "P";
               "1"; "2"; "3"]] ]} ].

Definition example_duplicate_atom : @Atom3D Z :=
  mkAtom3D (Some (mkResidueLabel "A" 1 "G"))
           (Some (mkResidueAuth "A" 1 "?" "G")) 1 "P" 1 2 3.

(** * Properties *)

Section StructureFacts.

Context {float : Type} `{Countable float}.
Variable py_float : string → option float.

Implicit Types (atom : @Atom3D float).
Implicit Types (atoms rest cur before mid after : list (@Atom3D float)).
Implicit Types (modified : gmap mod_key string) (st : @group_state float _ _).

(** ** Name resolution *)


(** ** The grouping loop *)

Lemma group_step_inv modified st atom :
  group_inv st → group_inv (group_step modified st atom).
Proof.
  intros (Hne & Hall & Hidx). unfold group_step.
  case_decide as Hkey; repeat split; simpl.
  - by intros [? ?]%app_eq_nil.
  - apply Forall_app. split; [done|]. by constructor.
  - done.
  - done.
  - by repeat constructor.
  - rewrite length_app. simpl. lia.
Qed.

Lemma group_loop_inv modified rest st :
  group_inv st → group_inv (foldl (group_step modified) st rest).
Proof.
  revert st. induction rest as [|atom rest IH]; intros st Hst; [done|].
  simpl. by apply IH, group_step_inv.
Qed.

Lemma group_loop_key modified rest st :
  key_previous (foldl (group_step modified) st rest)
  = from_option atom_key (key_previous st) (last rest).
Proof.
  induction rest as [|atom rest IH] using rev_ind; [done|].
  rewrite foldl_snoc, last_snoc. simpl.
  unfold group_step. by case_decide.
Qed.

Lemma group_inv_init (atom0 : @Atom3D float) :
  group_inv (mkGroupState (atom_key atom0) [atom0] [] 1).
Proof. repeat split; simpl; [done|by repeat constructor]. Qed.

(** ** Runs *)

Lemma runs_of_cons_head atom atoms :
  ∃ run runs, runs_of (atom :: atoms) = (atom_key atom, atom :: run) :: runs.
Proof.
  simpl. destruct (runs_of atoms) as [|[key run] runs]; [by eauto|].
  case_decide; subst; eauto.
Qed.

Lemma runs_of_app_run key cur rest :
  cur ≠ [] →
  Forall (λ atom, atom_key atom = key) cur →
  (∀ atom, head rest = Some atom → atom_key atom ≠ key) →
  runs_of (cur ++ rest) = (key, cur) :: runs_of rest.
Proof.
  intros Hne Hall Hhd. induction cur as [|c cur IH]; [done|].
  apply Forall_cons in Hall as [Hc Hall].
  destruct cur as [|c' cur].
  - destruct rest as [|atom rest]; cbn [app]; [cbn [runs_of]; by rewrite Hc|].
    destruct (runs_of_cons_head atom rest) as (run & runs & Heq).
    change (runs_of (c :: atom :: rest))
      with (match runs_of (atom :: rest) with
            | (key, run) :: runs =>
                if decide (atom_key c = key) then (key, c :: run) :: runs
                else (atom_key c, [c]) :: (key, run) :: runs
            | [] => [(atom_key c, [c])]
            end).
    rewrite Heq. cbv beta iota.
    rewrite decide_False; [by rewrite Hc|].
    rewrite Hc. intros Hsame. by apply (Hhd atom).
  - change ((c :: c' :: cur) ++ rest) with (c :: ((c' :: cur) ++ rest)).
    cbn [runs_of]. rewrite IH by done.
    by rewrite decide_True.
Qed.

Lemma runs_of_concat atoms : concat (snd <$> runs_of atoms) = atoms.
Proof.
  induction atoms as [|atom atoms IH]; [done|].
  simpl. destruct (runs_of atoms) as [|[key run] runs]; simpl in *.
  - by subst.
  - case_decide; simpl; by rewrite IH.
Qed.

Lemma runs_of_homogeneous atoms :
  Forall (λ run, run.2 ≠ [] ∧ Forall (λ atom, atom_key atom = run.1) run.2)
         (runs_of atoms).
Proof.
  induction atoms as [|atom atoms IH]; [by constructor|].
  simpl. destruct (runs_of atoms) as [|[key run] runs].
  - by repeat constructor.
  - apply Forall_cons in IH as [[Hne Hall] IH]. simpl in *.
    case_decide; repeat constructor; simpl; done.
Qed.

Lemma runs_of_adjacent atoms i run1 run2 :
  runs_of atoms !! i = Some run1 →
  runs_of atoms !! S i = Some run2 →
  run1.1 ≠ run2.1.
Proof.
  revert i run1 run2. induction atoms as [|atom atoms IH]; [done|].
  intros i run1 run2. simpl.
  destruct (runs_of atoms) as [|[key run] runs] eqn:Hruns; [done|].
  case_decide as Hkey.
  - destruct i as [|i]; simpl.
    + intros [= <-] H2. simpl. by apply (IH 0%nat (key, run) run2).
    + intros H1 H2. by apply (IH (S i) run1 run2).
  - destruct i as [|i]; simpl.
    + by intros [= <-] [= <-].
    + intros H1 H2. by apply (IH i run1 run2).
Qed.

(** A position of the concatenation of the runs lies in one run. *)
Lemma runs_split_at {K A} (runs : list (K * list A)) l1 x l2 :
  concat (snd <$> runs) = l1 ++ x :: l2 →
  ∃ runs1 key pre post runs2,
    runs = runs1 ++ (key, pre ++ x :: post) :: runs2
    ∧ concat (snd <$> runs1) ++ pre = l1
    ∧ post ++ concat (snd <$> runs2) = l2.
Proof.
  revert l1. induction runs as [|[key run] runs IH]; intros l1; simpl.
  - by destruct l1.
  - intros [l [[-> Hl]|[-> Hl]]]%app_eq_app.
    + destruct l as [|y l]; simpl in Hl.
      * destruct (IH [] (eq_sym Hl)) as (runs1 & k & pre & post & runs2 & -> & Hpre & <-).
        exists ((key, l1 ++ []) :: runs1), k, pre, post, runs2.
        split_and!; [done| |done].
        rewrite fmap_cons. cbn [concat snd].
        rewrite <- !app_assoc, Hpre. by rewrite !app_nil_r.
      * injection Hl as <- ->.
        by exists [], key, l1, l, runs.
    + destruct (IH l Hl) as (runs1 & k & pre & post & runs2 & -> & <- & <-).
      exists ((key, run) :: runs1), k, pre, post, runs2.
      split_and!; [done| |done].
      rewrite fmap_cons. cbn [concat snd]. by rewrite <- app_assoc.
Qed.

(** Two atoms with an atom of another key between them lie in two
    different runs. *)
Lemma runs_of_separated before (a : @Atom3D float) mid b after c :
  c ∈ mid → atom_key c ≠ atom_key a →
  ∃ runs1 ka pre_a post_a runs2 kb pre_b post_b runs3,
    runs_of (before ++ a :: mid ++ b :: after)
    = runs1 ++ (ka, pre_a ++ a :: post_a)
            :: runs2 ++ (kb, pre_b ++ b :: post_b) :: runs3
    ∧ concat (snd <$> runs1) ++ pre_a = before
    ∧ post_a ++ concat (snd <$> runs2) ++ pre_b = mid
    ∧ post_b ++ concat (snd <$> runs3) = after.
Proof.
  intros Hc Hkey.
  destruct (runs_split_at _ before a (mid ++ b :: after)
              (runs_of_concat (before ++ a :: mid ++ b :: after)))
    as (runs1 & ka & pre_a & post_a & runs' & Hruns & Hl1 & Hrest).
  apply app_eq_app in Hrest as [l [[Hpost Hl]|[Hmid Hl]]].
  - exfalso. apply Hkey.
    pose proof (runs_of_homogeneous (before ++ a :: mid ++ b :: after)) as Hhom.
    rewrite Hruns in Hhom. apply Forall_app in Hhom as [_ Hhom].
    apply Forall_cons in Hhom as [[_ Hrun] _]. simpl in Hrun.
    rewrite Forall_forall in Hrun.
    rewrite (Hrun c), (Hrun a); [done| |]; set_solver.
  - destruct (runs_split_at _ _ _ _ Hl)
      as (runs2 & kb & pre_b & post_b & runs3 & -> & Hl' & Hl2).
    exists runs1, ka, pre_a, post_a, runs2, kb, pre_b, post_b, runs3.
    repeat split; [done|done| |done].
    by rewrite Hmid, <- Hl'.
Qed.

(** ** The loop computes the runs *)

Lemma residue_of_run_close modified st :
  group_inv st →
  close_residue modified st
  = residue_of_run modified (length (residues_acc st))
                   (key_previous st, residue_atoms st).
Proof.
  intros (_ & _ & Hidx). unfold close_residue, residue_of_run. simpl.
  by rewrite Hidx.
Qed.

Lemma group_loop_runs modified rest st :
  group_inv st →
  let st' := foldl (group_step modified) st rest in
  residues_acc st' ++ [close_residue modified st']
  = residues_acc st
    ++ imap (λ i, residue_of_run modified (length (residues_acc st) + i))
            (runs_of (residue_atoms st ++ rest)).
Proof.
  revert st. induction rest as [|atom rest IH]; intros st Hst.
  - simpl. destruct Hst as (Hne & Hall & Hidx).
    rewrite (runs_of_app_run (key_previous st)) by done. simpl.
    rewrite residue_of_run_close by done.
    by rewrite Nat.add_0_r.
  - cbn [foldl]. cbv zeta.
    pose proof (group_step_inv modified st atom Hst) as Hst'.
    specialize (IH _ Hst'). cbv zeta in IH. rewrite IH. clear IH.
    destruct Hst as (Hne & Hall & Hidx). unfold group_step.
    case_decide as Hkey; cbn [residues_acc residue_atoms].
    + by rewrite <- app_assoc.
    + rewrite (runs_of_app_run (key_previous st) (residue_atoms st))
        by (done || by intros ? [= <-]).
      rewrite imap_cons, <- app_assoc. cbn [app].
      rewrite residue_of_run_close by done.
      rewrite Nat.add_0_r. do 2 f_equal.
      apply imap_ext. intros i run _. simpl.
      rewrite length_app. simpl. f_equal. lia.
Qed.

Lemma group_atoms_runs atoms modified :
  residues (group_atoms atoms modified)
  = imap (residue_of_run modified) (runs_of atoms).
Proof.
  destruct atoms as [|atom0 rest]; [done|].
  unfold group_atoms. cbn [residues].
  pose proof (group_loop_runs modified rest _ (group_inv_init atom0)) as Hloop.
  cbv zeta in Hloop. rewrite Hloop. done.
Qed.

Lemma residue_of_run_indices modified (n : nat)
    (runs : list ((option ResidueLabel * option ResidueAuth * Z)
                  * list (@Atom3D float))) :
  res_index <$> imap (λ i, residue_of_run modified (n + i)) runs
  = Z.of_nat <$> seq (S n) (length runs).
Proof.
  revert n. induction runs as [|run runs IH]; intros n; [done|].
  rewrite imap_cons. cbn [fmap list_fmap length seq]. f_equal.
  - simpl. lia.
  - rewrite <- IH. f_equal. apply imap_ext. intros i r _. simpl.
    f_equal. lia.
Qed.

(** ** One more atom *)

Lemma group_loop_last modified atom0 rest last_atom :
  last (atom0 :: rest) = Some last_atom →
  key_previous
    (foldl (group_step modified) (mkGroupState (atom_key atom0) [atom0] [] 1)
           rest)
  = atom_key last_atom.
Proof.
  rewrite last_cons, group_loop_key. simpl.
  destruct (last rest); by intros [= ->].
Qed.

Lemma group_atoms_snoc modified atom0 rest atom :
  residues (group_atoms ((atom0 :: rest) ++ [atom]) modified)
  = let st := group_step modified
                (foldl (group_step modified)
                       (mkGroupState (atom_key atom0) [atom0] [] 1) rest)
                atom in
    residues_acc st ++ [close_residue modified st].
Proof. cbn [app group_atoms residues]. by rewrite foldl_snoc. Qed.

Lemma group_atoms_join atoms modified atom last_atom :
  last atoms = Some last_atom →
  atom_key atom = atom_key last_atom →
  ∃ closed current,
    residues (group_atoms atoms modified) = closed ++ [current]
    ∧ residues (group_atoms (atoms ++ [atom]) modified)
      = closed ++ [mkResidue3D (res_index current) (res_name current)
                     (res_model current) (res_label current)
                     (res_auth current) (res_atoms current ∪ {[atom]})].
Proof.
  destruct atoms as [|atom0 rest]; [done|]. intros Hlast Hkey.
  rewrite group_atoms_snoc. cbv zeta.
  pose proof (group_loop_last modified _ _ _ Hlast) as Hprev.
  cbn [group_atoms residues].
  set (st := foldl _ _ rest) in *.
  unfold group_step. rewrite Hprev, decide_True by done.
  exists (residues_acc st), (close_residue modified st). split; [done|].
  cbn [residues_acc]. f_equal. unfold close_residue. simpl.
  by rewrite Hprev, list_to_set_app_L, list_to_set_singleton_L.
Qed.

Lemma group_atoms_split atoms modified atom last_atom :
  last atoms = Some last_atom →
  atom_key atom ≠ atom_key last_atom →
  residues (group_atoms (atoms ++ [atom]) modified)
  = residues (group_atoms atoms modified)
    ++ [mkResidue3D
          (Z.of_nat (length (residues (group_atoms atoms modified))) + 1)
          (get_residue_name (atom_auth atom) (atom_label atom) modified)
          (atom_model atom) (atom_label atom) (atom_auth atom) {[atom]}].
Proof.
  destruct atoms as [|atom0 rest]; [done|]. intros Hlast Hkey.
  rewrite group_atoms_snoc. cbv zeta.
  pose proof (group_loop_last modified _ _ _ Hlast) as Hprev.
  destruct (group_loop_inv modified rest _ (group_inv_init atom0))
    as (_ & _ & Hidx).
  cbn [group_atoms residues].
  set (st := foldl _ _ rest) in *.
  unfold group_step. rewrite Hprev, decide_False by done.
  cbn [residues_acc]. f_equal.
  unfold close_residue at 1. cbn [index key_previous residue_atoms].
  rewrite Hidx, length_app. cbn [length atom_key fst snd].
  rewrite list_to_set_singleton_L.
  do 2 f_equal. lia.
Qed.

(** ** The pair key on a list of one model *)

Lemma atom_key_pair_key atom (other : @Atom3D float) :
  atom_model atom = atom_model other →
  atom_key atom = atom_key other ↔ pair_key atom = pair_key other.
Proof.
  unfold atom_key, pair_key. intros ->.
  split; [by intros [= -> ->]|by intros [= -> ->]].
Qed.

Lemma runs_of_pair_runs atoms model :
  Forall (λ atom, atom_model atom = model) atoms →
  runs_of atoms
  = prod_map (λ key, (key, model)) id <$> pair_runs_of atoms.
Proof.
  induction 1 as [|atom rest Hmodel _ IH]; [done|].
  cbn [runs_of pair_runs_of]. rewrite IH.
  destruct (pair_runs_of rest) as [|[key run] runs].
  { cbn. unfold atom_key, pair_key. by rewrite Hmodel. }
  cbn [fmap list_fmap prod_map fst snd id].
  assert (atom_key atom = (pair_key atom, model)) as Hkey.
  { unfold atom_key, pair_key. by rewrite Hmodel. }
  rewrite Hkey. destruct (decide (pair_key atom = key)) as [->|Hne].
  - by rewrite decide_True.
  - rewrite decide_False by congruence. done.
Qed.

Lemma snd_prod_map_runs {K L A} (f : K → L) (runs : list (K * list A)) :
  snd <$> (prod_map f id <$> runs) = snd <$> runs.
Proof. rewrite <- list_fmap_compose. by apply list_fmap_ext. Qed.

Lemma pair_runs_separated before (a : @Atom3D float) mid b after c model :
  Forall (λ atom, atom_model atom = model)
         (before ++ a :: mid ++ b :: after) →
  c ∈ mid → pair_key c ≠ pair_key a →
  ∃ runs1 ka pre_a post_a runs2 kb pre_b post_b runs3,
    pair_runs_of (before ++ a :: mid ++ b :: after)
    = runs1 ++ (ka, pre_a ++ a :: post_a)
            :: runs2 ++ (kb, pre_b ++ b :: post_b) :: runs3
    ∧ concat (snd <$> runs1) ++ pre_a = before
    ∧ post_a ++ concat (snd <$> runs2) ++ pre_b = mid
    ∧ post_b ++ concat (snd <$> runs3) = after.
Proof.
  intros Hmodel Hc Hkey.
  assert (atom_key c ≠ atom_key a) as Hkey'.
  { intros Heq. apply Hkey. unfold atom_key in Heq. unfold pair_key.
    congruence. }
  destruct (runs_of_separated before a mid b after c Hc Hkey')
    as (runs1 & ka & pre_a & post_a & runs2 & kb & pre_b & post_b & runs3
        & Hruns & Hbefore & Hmid & Hafter).
  rewrite (runs_of_pair_runs _ model Hmodel) in Hruns.
  apply fmap_app_inv in Hruns as (p1 & tail & -> & Htail & ->).
  symmetry in Htail.
  apply fmap_cons_inv in Htail as ([pka run_a] & tail' & Hrun_a & Htail & ->).
  symmetry in Htail.
  apply fmap_app_inv in Htail as (p2 & tail'' & -> & Htail & ->).
  symmetry in Htail.
  apply fmap_cons_inv in Htail as ([pkb run_b] & p3 & Hrun_b & -> & ->).
  cbn in Hrun_a, Hrun_b.
  injection Hrun_a as _ <-. injection Hrun_b as _ <-.
  rewrite !snd_prod_map_runs in *.
  by exists p1, pka, pre_a, post_a, p2, pkb, pre_b, post_b, p3.
Qed.

(** C1. On a list of atoms of one model, which is what the grouper is
    given, grouping partitions the list into contiguous runs of the key
    (label, auth): the residues are the maximal runs of equal keys, in
    order; an atom whose key equals the running key joins the atom set
    of the current residue; an atom with another key closes the current
    residue and opens a new one; and two atoms with one key that have an
    atom of another key between them lie in two different runs, hence in
    two different residues. *)
Theorem group_atoms_contiguous_runs atoms modified model :
  Forall (λ atom, atom_model atom = model) atoms →
  let runs := pair_runs_of atoms in
  residues (group_atoms atoms modified)
  = imap (residue_of_pair_run modified model) runs
  ∧ concat (snd <$> runs) = atoms
  ∧ Forall (λ run, run.2 ≠ []
                   ∧ Forall (λ atom, pair_key atom = run.1) run.2) runs
  ∧ (∀ i run1 run2,
       runs !! i = Some run1 → runs !! S i = Some run2 → run1.1 ≠ run2.1)
  ∧ (∀ atom last_atom,
       atom_model atom = model →
       last atoms = Some last_atom →
       pair_key atom = pair_key last_atom →
       ∃ closed current,
         residues (group_atoms atoms modified) = closed ++ [current]
         ∧ residues (group_atoms (atoms ++ [atom]) modified)
           = closed ++ [mkResidue3D (res_index current) (res_name current)
                          (res_model current) (res_label current)
                          (res_auth current)
                          (res_atoms current ∪ {[atom]})])
  ∧ (∀ atom last_atom,
       atom_model atom = model →
       last atoms = Some last_atom →
       pair_key atom ≠ pair_key last_atom →
       residues (group_atoms (atoms ++ [atom]) modified)
       = residues (group_atoms atoms modified)
         ++ [mkResidue3D
               (Z.of_nat (length (residues (group_atoms atoms modified))) + 1)
               (get_residue_name (atom_auth atom) (atom_label atom) modified)
               model (atom_label atom) (atom_auth atom) {[atom]}])
  ∧ (∀ before (a : @Atom3D float) mid b after c,
       atoms = before ++ a :: mid ++ b :: after →
       pair_key a = pair_key b →
       c ∈ mid → pair_key c ≠ pair_key a →
       ∃ runs1 ka pre_a post_a runs2 kb pre_b post_b runs3,
         runs = runs1 ++ (ka, pre_a ++ a :: post_a)
                     :: runs2 ++ (kb, pre_b ++ b :: post_b) :: runs3
         ∧ concat (snd <$> runs1) ++ pre_a = before
         ∧ post_a ++ concat (snd <$> runs2) ++ pre_b = mid
         ∧ post_b ++ concat (snd <$> runs3) = after).
Proof.
  intros Hmodel. cbv zeta.
  pose proof (runs_of_pair_runs atoms model Hmodel) as Hruns.
  assert (∀ last_atom, last atoms = Some last_atom →
            atom_model last_atom = model) as Hlast.
  { intros last_atom Hin%last_Some_elem_of.
    by apply (proj1 (Forall_forall _ _) Hmodel). }
  split_and!.
  - rewrite group_atoms_runs, Hruns, imap_fmap. apply imap_ext.
    by intros i [[label auth] run] _.
  - rewrite <- (runs_of_concat atoms) at 2.
    by rewrite Hruns, snd_prod_map_runs.
  - pose proof (runs_of_homogeneous atoms) as Hhom.
    rewrite Hruns, Forall_fmap in Hhom.
    eapply Forall_impl; [exact Hhom|].
    intros [key run] [Hne Hkeys]. split; [done|].
    eapply Forall_impl; [exact Hkeys|].
    intros atom. unfold atom_key, pair_key. cbn. congruence.
  - intros i [k1 r1] [k2 r2] H1 H2 Heq. cbn in Heq. subst k2.
    apply (runs_of_adjacent atoms i (k1, model, r1) (k1, model, r2)).
    + by rewrite Hruns, list_lookup_fmap, H1.
    + by rewrite Hruns, list_lookup_fmap, H2.
    + done.
  - intros atom last_atom Hatom Hl Hkey.
    apply (group_atoms_join atoms modified atom last_atom Hl).
    apply atom_key_pair_key; [|done]. by rewrite (Hlast _ Hl).
  - intros atom last_atom Hatom Hl Hkey.
    rewrite (group_atoms_split atoms modified atom last_atom Hl).
    + by rewrite Hatom.
    + intros Heq. apply Hkey. apply atom_key_pair_key; [|done].
      by rewrite (Hlast _ Hl).
  - intros before a mid b after c -> _ Hc Hkey.
    by apply (pair_runs_separated before a mid b after c model).
Qed.

(** C2. The [i]-th residue of the result carries the index [i], counted
    from 1, so the indices are strictly increasing and gapless; the empty
    atom list gives a structure without residues. *)
Theorem group_atoms_indices atoms modified :
  res_index <$> residues (group_atoms atoms modified)
  = Z.of_nat <$> seq 1 (length (residues (group_atoms atoms modified)))
  ∧ group_atoms (@nil (@Atom3D float)) modified = mkStructure3D [].
Proof.
  split; [|done].
  rewrite group_atoms_runs, length_imap.
  apply (residue_of_run_indices modified 0).
Qed.

(** ** Counting atoms *)

Lemma atom_count_runs modified (n : nat)
    (runs : list ((option ResidueLabel * option ResidueAuth * Z)
                  * list (@Atom3D float))) :
  NoDup (concat (snd <$> runs)) →
  sum_list ((λ residue, size (res_atoms residue))
              <$> imap (λ i, residue_of_run modified (n + i)) runs)
  = length (concat (snd <$> runs)).
Proof.
  revert n. induction runs as [|[key run] runs IH]; intros n; [done|].
  rewrite fmap_cons. cbn [concat snd].
  intros (Hrun & _ & Hruns)%NoDup_app.
  rewrite imap_cons, fmap_cons, length_app. cbn [sum_list sum_list_with].
  f_equal.
  - simpl. by apply size_list_to_set.
  - rewrite <- (IH (S n) Hruns). do 2 f_equal.
    apply imap_ext. intros i r _. simpl. do 2 f_equal. lia.
Qed.

Lemma atom_count_group_atoms atoms modified :
  NoDup atoms → atom_count (group_atoms atoms modified) = length atoms.
Proof.
  intros Hnodup. unfold atom_count. rewrite group_atoms_runs.
  rewrite <- (runs_of_concat atoms) at 2.
  apply (atom_count_runs modified 0). by rewrite runs_of_concat.
Qed.

(** ** Exceptions propagate *)

Lemma bind_inr {A B} (m : result A) (f : A → result B) y :
  m ≫= f = inr y → ∃ x, m = inr x ∧ f x = inr y.
Proof. destruct m as [e|x]; [done|]. by exists x. Qed.

Lemma bind_inl {A B} (m : result A) (f : A → result B) e :
  m = inl e → m ≫= f = inl e.
Proof. by intros ->. Qed.

Lemma for_each_app {S A} (body : S → A → result S) (s : S) (l k : list A) :
  for_each body s (l ++ k) = for_each body s l ≫= λ s', for_each body s' k.
Proof.
  revert s. induction l as [|x l IH]; intros s; [done|].
  simpl. destruct (body s x) as [e|s']; [done|]. apply IH.
Qed.

(** A row that raises makes the whole loop raise. *)
Lemma for_each_raises {S A} (body : S → A → result S) (s : S) (l : list A) x :
  x ∈ l → (∀ s', raises (body s' x)) → raises (for_each body s l).
Proof.
  intros Hx Hbody. revert s.
  induction l as [|y l IH]; intros s; [by apply elem_of_nil in Hx|].
  simpl. apply elem_of_cons in Hx as [<-|Hx].
  - destruct (Hbody s) as [e ->]. by exists e.
  - destruct (body s y) as [e|s']; [by exists e|]. by apply IH.
Qed.

(** A loop that appends one item per row. *)
Lemma for_each_collect {A B} (f : A → result B) (acc : list B) rows out :
  for_each (λ (acc : list B) row, x ← f row; mret (acc ++ [x])) acc rows
  = inr out →
  ∃ new, out = acc ++ new ∧ Forall2 (λ row x, f row = inr x) rows new.
Proof.
  revert acc. induction rows as [|row rows IH]; intros acc; simpl.
  - intros [= <-]. exists []. by rewrite app_nil_r.
  - intros (acc' & (x & Hrow & [= <-])%bind_inr & Hrest)%bind_inr.
    destruct (IH _ Hrest) as (new & -> & Hall).
    exists (x :: new). split; [by rewrite <- app_assoc|]. by constructor.
Qed.

(** ** Rows of the atom table *)

Lemma try_parse_int_spec (s : option string) :
  try_parse_int s = match s with
                    | Some s' => inr (Py.int s')
                    | None => inl TypeError
                    end.
Proof.
  destruct s as [s|]; [|done]. unfold try_parse_int.
  by destruct (Py.int s).
Qed.

Lemma parse_atom_row_model row_dict atom :
  parse_atom_row py_float row_dict = inr atom →
  row_model row_dict = Some (atom_model atom).
Proof.
  unfold parse_atom_row, row_model.
  intros (n1 & _ & Hrow)%bind_inr.
  apply bind_inr in Hrow as (n2 & _ & Hrow).
  repeat case_match; try done.
  all: apply bind_inr in Hrow as (model & Hmodel & Hrow).
  all: apply bind_inr in Hrow as (name & _ & Hrow).
  all: apply bind_inr in Hrow as (cx & _ & Hrow).
  all: apply bind_inr in Hrow as (cy & _ & Hrow).
  all: apply bind_inr in Hrow as (cz & _ & [= <-]).
  all: unfold int_of in Hmodel; simpl.
  all: destruct (Py.int _) as [n|]; [|done].
  all: by inversion Hmodel.
Qed.

(** The atoms that [parse_cif] returns are the rows of the atom table,
    one atom per row, in order. *)
Lemma parse_cif_atoms data atoms modified :
  parse_cif py_float data = inr (atoms, modified) →
  Forall2 (λ row_dict atom, parse_atom_row py_float row_dict = inr atom)
          (atom_rows data) atoms.
Proof.
  unfold parse_cif, atom_rows. destruct data as [|block _].
  { intros [= <- <-]. constructor. }
  intros (atoms' & Hatoms & Hrest)%bind_inr.
  apply bind_inr in Hrest as (modified' & _ & [= <- <-]).
  destruct (block !! "atom_site") as [table|].
  - apply for_each_collect in Hatoms as (new & -> & Hall).
    by apply Forall2_fmap_l.
  - injection Hatoms as <-. constructor.
Qed.

Lemma filter_model_length (rows : list (gmap string string)) atoms model :
  Forall2 (λ row_dict atom, parse_atom_row py_float row_dict = inr atom)
          rows atoms →
  length (filter (λ atom, atom_model atom = model) atoms)
  = length (filter (λ row_dict, row_model row_dict = Some model) rows).
Proof.
  induction 1 as [|row_dict atom rows atoms Hrow _ IH]; [done|].
  apply parse_atom_row_model in Hrow.
  rewrite !filter_cons, Hrow.
  destruct (decide (atom_model atom = model)) as [->|Hne].
  - rewrite decide_True by done. simpl. by rewrite IH.
  - rewrite decide_False by congruence. done.
Qed.

(** C7 (amended). For a tag-based input that parses and whose atoms of
    the requested model are pairwise different, the sizes of the atom
    sets of the residues of the structure add up to the number of rows
    of the atom table whose model number is the requested one. Rows that
    give equal atoms count once: an atom set holds an atom once. *)
Theorem read_3d_structure_atom_count cif_or_pdb model atoms modified :
  is_cif cif_or_pdb = true →
  parse_cif py_float (readFile cif_or_pdb) = inr (atoms, modified) →
  NoDup (filter (λ atom, atom_model atom = model) atoms) →
  ∃ structure,
    read_3d_structure py_float cif_or_pdb model = inr structure
    ∧ atom_count structure
      = length (filter (λ row_dict, row_model row_dict = Some model)
                       (atom_rows (readFile cif_or_pdb))).
Proof.
  intros Hcif Hparse Hnodup. unfold read_3d_structure.
  rewrite Hcif, Hparse. eexists. split; [done|].
  rewrite atom_count_group_atoms by done.
  by apply filter_model_length, parse_cif_atoms with modified.
Qed.

(** ** Identifiers of a row *)

Lemma parse_atom_row_absent_raises row_dict :
  field_absent_on_both_sides row_dict →
  raises (parse_atom_row py_float row_dict).
Proof.
  unfold field_absent_on_both_sides, number_absent, parse_atom_row, raises.
  rewrite !try_parse_int_spec.
  destruct (row_dict !! "label_seq_id") as [s1|]; [|by eauto].
  destruct (row_dict !! "auth_seq_id") as [s2|]; [|by eauto].
  cbn [mbind result_bind].
  intros Habs. repeat case_bool_decide; [by eauto..|].
  exfalso. intuition congruence.
Qed.

(** Reading the model number, the atom name and the coordinates raises
    no [RuntimeError]. *)
Lemma atom_row_tail_error row_dict
    (k : Z → string → float → float → float → @Atom3D float) msg :
  (model ← int_of (default "1" (row_dict !! "pdbx_PDB_model_num"));
   atom_name ← getitem row_dict "label_atom_id";
   x ← getitem row_dict "Cartn_x" ≫= float_of py_float;
   y ← getitem row_dict "Cartn_y" ≫= float_of py_float;
   z ← getitem row_dict "Cartn_z" ≫= float_of py_float;
   mret (k model atom_name x y z)) ≠ inl (RuntimeError msg).
Proof.
  unfold int_of, getitem, float_of.
  repeat (case_match; cbn [mbind result_bind mret result_ret raise]; try done).
Qed.

Lemma parse_atom_row_runtime_error row_dict :
  is_Some (row_dict !! "label_seq_id") →
  is_Some (row_dict !! "auth_seq_id") →
  (∃ msg, parse_atom_row py_float row_dict = inl (RuntimeError msg))
  ↔ field_absent_on_both_sides row_dict.
Proof.
  unfold field_absent_on_both_sides, number_absent, parse_atom_row.
  rewrite !try_parse_int_spec.
  intros [s1 ->] [s2 ->]. cbn [mbind result_bind].
  repeat case_bool_decide.
  - split; [tauto|by eauto].
  - split; [tauto|by eauto].
  - split; [tauto|by eauto].
  - split.
    + intros [msg Hmsg]. by apply atom_row_tail_error in Hmsg.
    + intuition congruence.
Qed.

Lemma parse_atom_row_identifiers row_dict atom :
  parse_atom_row py_float row_dict = inr atom →
  (is_Some (atom_label atom) ↔ label_complete row_dict)
  ∧ (is_Some (atom_auth atom)
     ↔ auth_complete row_dict "pdbx_PDB_ins_code").
Proof.
  unfold label_complete, auth_complete, number_absent, parse_atom_row.
  rewrite !try_parse_int_spec.
  destruct (row_dict !! "label_seq_id") as [s1|]; [|done].
  destruct (row_dict !! "auth_seq_id") as [s2|]; [|done].
  cbn [mbind result_bind].
  repeat (case_bool_decide; [done|]).
  intros (model & _ & Hrow)%bind_inr.
  apply bind_inr in Hrow as (name & _ & Hrow).
  apply bind_inr in Hrow as (cx & _ & Hrow).
  apply bind_inr in Hrow as (cy & _ & Hrow).
  apply bind_inr in Hrow as (cz & _ & [= <-]).
  cbn [atom_label atom_auth]. rewrite !is_Some_alt. split.
  - destruct (row_dict !! "label_asym_id"), (Py.int s1),
      (row_dict !! "label_comp_id"); intuition congruence.
  - destruct (row_dict !! "auth_asym_id"), (Py.int s2),
      (row_dict !! "auth_comp_id"), (row_dict !! "pdbx_PDB_ins_code");
      intuition congruence.
Qed.

Lemma parse_mod_row_incomplete modified row_dict :
  is_Some (row_dict !! "label_seq_id") →
  is_Some (row_dict !! "auth_seq_id") →
  ¬ label_complete row_dict →
  ¬ auth_complete row_dict "PDB_ins_code" →
  parse_mod_row modified row_dict
  = inr (<[KNone := default "n" (row_dict !! "parent_comp_id")]> modified).
Proof.
  unfold label_complete, auth_complete, number_absent, parse_mod_row.
  rewrite !try_parse_int_spec.
  intros [s1 ->] [s2 ->]. cbn [mbind result_bind].
  rewrite !is_Some_alt. intros Hlabel Hauth.
  destruct (row_dict !! "label_asym_id"), (Py.int s1),
    (row_dict !! "label_comp_id");
    try (exfalso; apply Hlabel; intuition congruence);
    destruct (row_dict !! "auth_asym_id"), (Py.int s2),
      (row_dict !! "auth_comp_id"), (row_dict !! "PDB_ins_code");
    try (exfalso; apply Hauth; intuition congruence);
    cbn [label_key auth_key from_option mret result_ret];
    by rewrite insert_insert_eq.
Qed.

Lemma parse_cif_row_raises data row_dict :
  row_dict ∈ atom_rows data →
  raises (parse_atom_row py_float row_dict) →
  raises (parse_cif py_float data).
Proof.
  unfold atom_rows, parse_cif. destruct data as [|block rest].
  { by intros ?%elem_of_nil. }
  destruct (block !! "atom_site") as [table|]; [|by intros ?%elem_of_nil].
  intros (row & -> & Hrow)%list_elem_of_fmap Hraises.
  destruct (for_each_raises
              (λ (atoms : list Atom3D) row,
                 atom ← parse_atom_row py_float
                          (row_dict_of (getAttributeList table) row);
                 mret (atoms ++ [atom]))
              [] (getRowList table) row Hrow) as [e He].
  - intros atoms. destruct Hraises as [e ->]. by exists e.
  - exists e. by rewrite He.
Qed.

Lemma parse_atom_row_missing_column row_dict :
  seq_column_missing row_dict →
  parse_atom_row py_float row_dict = inl TypeError.
Proof.
  unfold seq_column_missing, parse_atom_row. rewrite !try_parse_int_spec.
  destruct (row_dict !! "label_seq_id") as [s1|]; [|done].
  by intros [?| ->].
Qed.

Lemma parse_mod_row_missing_column modified row_dict :
  seq_column_missing row_dict →
  parse_mod_row modified row_dict = inl TypeError.
Proof.
  unfold seq_column_missing, parse_mod_row. rewrite !try_parse_int_spec.
  destruct (row_dict !! "label_seq_id") as [s1|]; [|done].
  by intros [?| ->].
Qed.

Lemma parse_mod_row_accepted modified row_dict :
  is_Some (row_dict !! "label_seq_id") →
  is_Some (row_dict !! "auth_seq_id") →
  ∃ modified', parse_mod_row modified row_dict = inr modified'.
Proof.
  unfold parse_mod_row. rewrite !try_parse_int_spec.
  intros [s1 ->] [s2 ->]. cbn [mbind result_bind]. by eexists.
Qed.

(** A row with each identifier field under some scheme, and whose model
    number, atom name and coordinates are read, gives an atom. *)
Lemma parse_atom_row_accepted row_dict model name x y z :
  is_Some (row_dict !! "label_seq_id") →
  is_Some (row_dict !! "auth_seq_id") →
  ¬ field_absent_on_both_sides row_dict →
  row_model row_dict = Some model →
  row_dict !! "label_atom_id" = Some name →
  row_dict !! "Cartn_x" ≫= py_float = Some x →
  row_dict !! "Cartn_y" ≫= py_float = Some y →
  row_dict !! "Cartn_z" ≫= py_float = Some z →
  ∃ atom,
    parse_atom_row py_float row_dict = inr atom
    ∧ atom_model atom = model ∧ atom_name atom = name
    ∧ atom_x atom = x ∧ atom_y atom = y ∧ atom_z atom = z.
Proof.
  unfold field_absent_on_both_sides, number_absent, row_model,
    parse_atom_row.
  rewrite !try_parse_int_spec.
  intros [s1 ->] [s2 ->] Hpresent Hmodel Hname Hx Hy Hz.
  cbn [mbind result_bind].
  repeat (case_bool_decide; [exfalso; tauto|]).
  unfold int_of, getitem. rewrite Hmodel, Hname.
  destruct (row_dict !! "Cartn_x") as [sx|]; [|done].
  destruct (row_dict !! "Cartn_y") as [sy|]; [|done].
  destruct (row_dict !! "Cartn_z") as [sz|]; [|done].
  cbn [mbind option_bind] in Hx, Hy, Hz.
  cbn [mbind result_bind mret result_ret]. unfold float_of.
  rewrite Hx, Hy, Hz. cbn [mbind result_bind mret result_ret].
  eexists. by split_and!.
Qed.

Lemma parse_cif_mod_row_raises data row_dict :
  row_dict ∈ mod_rows data →
  (∀ modified, raises (parse_mod_row modified row_dict)) →
  raises (parse_cif py_float data).
Proof.
  unfold mod_rows, parse_cif. destruct data as [|block rest].
  { by intros ?%elem_of_nil. }
  destruct (block !! "pdbx_struct_mod_residue") as [mod_table|];
    [|by intros ?%elem_of_nil].
  destruct (block !! "atom_site") as [table|]; [|by intros ?%elem_of_nil].
  intros (row & -> & Hrow)%list_elem_of_fmap Hraises.
  destruct (for_each _ [] (getRowList table)) as [e|atoms];
    [by exists e|].
  cbn [mbind result_bind].
  destruct (for_each_raises
              (λ modified row,
                 attributes ← mret (getAttributeList table);
                 parse_mod_row modified (row_dict_of attributes row))
              ∅ (getRowList mod_table) row Hrow) as [e He].
  - intros modified. apply Hraises.
  - exists e. by rewrite He.
Qed.

(** C3 (amended). An atom row in which some identifier field (chain,
    sequence number or residue name) is absent under both schemes makes
    the whole parse fail: an exception is raised and neither an atom list
    nor a modification table is returned. So does an atom row or a row
    of modified residues whose dictionary lacks one of the two
    sequence-number columns: the row raises [TypeError], whatever the
    other scheme holds. Where the two sequence-number columns exist, an
    atom row is rejected for its identifiers exactly when some field is
    absent under both schemes; a row that has each field under some
    scheme, and whose model number, atom name and coordinates are read,
    is accepted, and an accepted row gives an atom that carries the label
    identifier exactly when the label scheme is complete and the auth
    identifier exactly when the auth scheme is complete, so it may carry
    neither. Where the two columns exist, a row of modified residues is
    accepted whatever its identifiers are; with no complete scheme its
    parent code is stored under the key [None]. *)
Theorem parse_cif_identifier_errors data :
  (∀ row_dict,
     row_dict ∈ atom_rows data →
     field_absent_on_both_sides row_dict →
     raises (parse_cif py_float data))
  ∧ (∀ row_dict,
       is_Some (row_dict !! "label_seq_id") →
       is_Some (row_dict !! "auth_seq_id") →
       (∃ msg, parse_atom_row py_float row_dict = inl (RuntimeError msg))
       ↔ field_absent_on_both_sides row_dict)
  ∧ (∀ row_dict atom,
       parse_atom_row py_float row_dict = inr atom →
       (is_Some (atom_label atom) ↔ label_complete row_dict)
       ∧ (is_Some (atom_auth atom)
          ↔ auth_complete row_dict "pdbx_PDB_ins_code"))
  ∧ (∀ modified row_dict,
       is_Some (row_dict !! "label_seq_id") →
       is_Some (row_dict !! "auth_seq_id") →
       ¬ label_complete row_dict →
       ¬ auth_complete row_dict "PDB_ins_code" →
       parse_mod_row modified row_dict
       = inr (<[KNone := default "n" (row_dict !! "parent_comp_id")]>
                modified))
  ∧ (∀ row_dict model name x y z,
       is_Some (row_dict !! "label_seq_id") →
       is_Some (row_dict !! "auth_seq_id") →
       ¬ field_absent_on_both_sides row_dict →
       row_model row_dict = Some model →
       row_dict !! "label_atom_id" = Some name →
       row_dict !! "Cartn_x" ≫= py_float = Some x →
       row_dict !! "Cartn_y" ≫= py_float = Some y →
       row_dict !! "Cartn_z" ≫= py_float = Some z →
       ∃ atom,
         parse_atom_row py_float row_dict = inr atom
         ∧ atom_model atom = model ∧ atom_name atom = name
         ∧ atom_x atom = x ∧ atom_y atom = y ∧ atom_z atom = z)
  ∧ (∀ modified row_dict,
       is_Some (row_dict !! "label_seq_id") →
       is_Some (row_dict !! "auth_seq_id") →
       ∃ modified', parse_mod_row modified row_dict = inr modified')
  ∧ (∀ modified row_dict,
       seq_column_missing row_dict →
       parse_atom_row py_float row_dict = inl TypeError
       ∧ parse_mod_row modified row_dict = inl TypeError)
  ∧ (∀ row_dict,
       row_dict ∈ atom_rows data ∨ row_dict ∈ mod_rows data →
       seq_column_missing row_dict →
       raises (parse_cif py_float data)).
Proof.
  split_and!.
  - intros row_dict Hrow Habs.
    by eapply parse_cif_row_raises, parse_atom_row_absent_raises.
  - apply parse_atom_row_runtime_error.
  - apply parse_atom_row_identifiers.
  - apply parse_mod_row_incomplete.
  - apply parse_atom_row_accepted.
  - apply parse_mod_row_accepted.
  - intros modified row_dict Hmissing.
    by rewrite parse_atom_row_missing_column, parse_mod_row_missing_column.
  - intros row_dict [Hrow|Hrow] Hmissing.
    + eapply parse_cif_row_raises; [done|].
      exists TypeError. by apply parse_atom_row_missing_column.
    + eapply parse_cif_mod_row_raises; [done|].
      intros modified. exists TypeError.
      by apply parse_mod_row_missing_column.
Qed.

(** ** Fixed-column lines *)

Lemma atom_line_not_model line :
  is_atom_line line = true → Py.startswith "MODEL" line = false.
Proof.
  unfold is_atom_line, Py.startswith. destruct line as [|c line]; [done|].
  cbn [String.prefix]. destruct (ascii_dec "M" c) as [<-|]; [|done].
  by destruct (ascii_dec "A" "M"), (ascii_dec "H" "M").
Qed.



(** What a line that is read without an exception does to the state. *)
Lemma parse_pdb_line_inr (st st' : @pdb_state float) line :
  parse_pdb_line py_float st line = inr st' →
  (pdb_atoms st' = pdb_atoms st
   ∨ ∃ atom a,
       is_atom_line line = true
       ∧ String.get 16 line = Some " "%char
       ∧ pdb_atoms st' = pdb_atoms st ++ [atom]
       ∧ atom_label atom = None
       ∧ atom_auth atom = Some a
       ∧ atom_model atom = pdb_model st
       ∧ auth_name a = Py.strip (Py.slice 18 20 line))
  ∧ (pdb_modified st' = pdb_modified st
     ∨ ∃ a,
         Py.startswith "MODRES" line = true
         ∧ pdb_modified st'
           = <[KAuth a := Py.strip (Py.slice 24 27 line)]> (pdb_modified st)
         ∧ auth_name a = Py.slice 12 15 line).
Proof.
  unfold parse_pdb_line.
  destruct (Py.startswith "MODEL" line).
  { intros (model & _ & [= <-])%bind_inr. by split; left. }
  fold (is_atom_line line).
  destruct (is_atom_line line) eqn:Hatom.
  { intros (alt & Halt & Hrow)%bind_inr.
    unfold Py.index in Halt.
    destruct (String.get 16 line) as [alt'|] eqn:Hget; [|done].
    injection Halt as ->.
    case_decide as Halt; [injection Hrow as <-; by split; left|].
    subst alt.
    apply bind_inr in Hrow as (chain & _ & Hrow).
    apply bind_inr in Hrow as (number & _ & Hrow).
    apply bind_inr in Hrow as (icode & _ & Hrow).
    apply bind_inr in Hrow as (cx & _ & Hrow).
    apply bind_inr in Hrow as (cy & _ & Hrow).
    apply bind_inr in Hrow as (cz & _ & [= <-]).
    split; [right|by left]. eexists _, _. by split_and!. }
  destruct (Py.startswith "MODRES" line) eqn:Hmodres.
  { intros (chain & _ & Hrow)%bind_inr.
    apply bind_inr in Hrow as (number & _ & Hrow).
    apply bind_inr in Hrow as (icode & _ & [= <-]).
    split; [by left|right]. eexists. by split_and!. }
  intros [= <-]. by split; left.
Qed.

Lemma for_each_inv {S A} (P : S → Prop) (body : S → A → result S)
    (l : list A) (s s' : S) :
  P s →
  (∀ s x s', x ∈ l → P s → body s x = inr s' → P s') →
  for_each body s l = inr s' → P s'.
Proof.
  revert s. induction l as [|x l IH]; intros s Hs Hbody; simpl.
  - by intros [= <-].
  - intros (s1 & Hx & Hrest)%bind_inr.
    apply (IH s1); [| |done].
    + apply (Hbody s x); [by left|done..].
    + intros s2 y s3 Hy. apply Hbody. by right.
Qed.



(** ** Residue names of the fixed-column format *)

Lemma length_lstrip s :
  (String.length (Py.lstrip s) ≤ String.length s)%nat.
Proof.
  induction s as [|c s IH]; simpl; [done|].
  destruct (Py.isspace c); simpl; lia.
Qed.

Lemma length_rstrip s :
  (String.length (Py.rstrip s) ≤ String.length s)%nat.
Proof.
  induction s as [|c s IH]; simpl; [done|].
  destruct (Py.rstrip s); [destruct (Py.isspace c)|]; simpl in *; lia.
Qed.

Lemma length_strip s : (String.length (Py.strip s) ≤ String.length s)%nat.
Proof.
  unfold Py.strip. etrans; [apply length_rstrip|apply length_lstrip].
Qed.

Lemma length_substring (n m : nat) s :
  (String.length (substring n m s) ≤ m)%nat.
Proof.
  revert n m. induction s as [|c s IH]; intros [|n] [|m]; simpl; try lia.
  - specialize (IH 0%nat m). lia.
  - apply (IH n 0%nat).
  - apply (IH n (S m)).
Qed.

Lemma length_strip_slice i j s :
  (String.length (Py.strip (Py.slice i j s)) ≤ j - i)%nat.
Proof.
  etrans; [apply length_strip|]. apply length_substring.
Qed.

(** What holds of the atoms and of the modification table while the
    lines are read. *)
Lemma parse_pdb_inv (lines : list string) (st : @pdb_state float) :
  for_each (parse_pdb_line py_float) (mkPdbState [] ∅ 1) lines = inr st →
  (∀ atom, atom ∈ pdb_atoms st →
     ∃ line a,
       line ∈ lines ∧ is_atom_line line = true
       ∧ atom_label atom = None ∧ atom_auth atom = Some a
       ∧ auth_name a = Py.strip (Py.slice 18 20 line))
  ∧ (∀ key parent, pdb_modified st !! key = Some parent →
       ∃ line a,
         line ∈ lines ∧ Py.startswith "MODRES" line = true
         ∧ key = KAuth a ∧ auth_name a = Py.slice 12 15 line
         ∧ parent = Py.strip (Py.slice 24 27 line)).
Proof.
  intros Hloop. pattern st.
  eapply for_each_inv; [| |exact Hloop]; cbv beta.
  { split; [by intros ? ?%elem_of_nil|]. intros key parent.
    cbn [pdb_modified]. by rewrite lookup_empty. }
  intros s line s' Hline [Hatoms Hmod] Hstep.
  apply parse_pdb_line_inr in Hstep as [Ha Hm]. split.
  - intros atom. destruct Ha as [->|(atom' & a & ? & ? & -> & ? & ? & ? & ?)].
    + apply Hatoms.
    + intros [Hin|Hin%list_elem_of_singleton]%elem_of_app; [by apply Hatoms|].
      subst atom. by exists line, a.
  - intros key parent. destruct Hm as [->|(a & ? & -> & ?)]; [apply Hmod|].
    destruct (decide (KAuth a = key)) as [<-|Hne].
    + rewrite lookup_insert_eq. intros [= <-]. by exists line, a.
    + rewrite lookup_insert_ne by done. apply Hmod.
Qed.

(** The name of a residue is its raw name, or comes from a [MODRES] line
    whose original name is the name read from the atom line. *)
Lemma parse_pdb_entry_source (lines : list string) atoms modified :
  parse_pdb py_float lines = inr (atoms, modified) →
  ∀ atom a, atom ∈ atoms → atom_auth atom = Some a →
    get_residue_name (atom_auth atom) (atom_label atom) modified
    = auth_name a
    ∨ ∃ atom_line modres_line,
        atom_line ∈ lines ∧ is_atom_line atom_line = true
        ∧ modres_line ∈ lines
        ∧ Py.startswith "MODRES" modres_line = true
        ∧ auth_name a = Py.strip (Py.slice 18 20 atom_line)
        ∧ Py.strip (Py.slice 18 20 atom_line) = Py.slice 12 15 modres_line
        ∧ get_residue_name (atom_auth atom) (atom_label atom) modified
          = Py.lower (Py.strip (Py.slice 24 27 modres_line)).
Proof.
  unfold parse_pdb. intros (st & Hloop & [= <- <-])%bind_inr.
  apply parse_pdb_inv in Hloop as [Hatoms Hmod].
  intros atom a (line & a' & ? & ? & Hlabel & Hauth & Hname)%Hatoms Ha.
  rewrite Hlabel, Ha. rewrite Hauth in Ha. injection Ha as ->.
  unfold get_residue_name. cbn [auth_key label_key from_option].
  destruct (pdb_modified st !! KAuth a) as [parent|] eqn:Hentry.
  - right. apply Hmod in Hentry as (mline & a' & ? & ? & [= <-] & ? & ->).
    exists line, mline. split_and!; congruence.
  - left. destruct (pdb_modified st !! KNone) as [parent|] eqn:Hnone; [|done].
    by apply Hmod in Hnone as (? & ? & ? & ? & ? & _).
Qed.


Lemma length_substring_exact (n m : nat) s :
  (n + m ≤ String.length s)%nat → String.length (substring n m s) = m.
Proof.
  revert n m. induction s as [|c s IH]; intros [|n] [|m]; simpl; try lia.
  - intros ?. rewrite (IH 0%nat m); lia.
  - intros ?. apply (IH n 0%nat). lia.
  - intros ?. apply (IH n (S m)). lia.
Qed.

(** Where every [MODRES] line has its three-character residue name in
    full, no entry applies to any residue: a name of three characters is
    never equal to a name of at most two. *)
Lemma parse_pdb_modres_never_applies (lines : list string) atoms modified :
  parse_pdb py_float lines = inr (atoms, modified) →
  (∀ line, line ∈ lines → Py.startswith "MODRES" line = true →
     (15 ≤ String.length line)%nat) →
  ∀ atom a, atom ∈ atoms → atom_auth atom = Some a →
    get_residue_name (atom_auth atom) (atom_label atom) modified
    = auth_name a.
Proof.
  intros Hparse Hlong atom a Hatom Hauth.
  destruct (parse_pdb_entry_source lines atoms modified Hparse
              atom a Hatom Hauth)
    as [Hraw|(aline & mline & _ & _ & Hm & Hmodres & _ & Heq & _)]; [done|].
  exfalso.
  pose proof (length_strip_slice 18 20 aline) as Hshort.
  rewrite Heq in Hshort. unfold Py.slice in Hshort.
  rewrite length_substring_exact in Hshort; [lia|].
  specialize (Hlong mline Hm Hmodres). lia.
Qed.

End StructureFacts.

Section DssrFacts.

Context {Residue LeontisWesthof Saenger StackingTopology : Type}.
Variable full_name : Residue → option string.
Variable members : gmap string LeontisWesthof.
Variable dunder : list string.

Implicit Types (structure3d : list Residue) (nts : list (option Residue)).
Implicit Types (stackings : list (@Stacking Residue StackingTopology)).

(** ** Stacks *)

Lemma stack_pair_loop (suffix : list (option Residue)) prefix nt stackings :
  foldl (stack_pair_step ((prefix ++ [nt]) ++ suffix)) stackings
        (seq (S (length prefix)) (length suffix))
  = stackings ++ adjacent_resolved (nt :: suffix).
Proof.
  revert prefix nt stackings.
  induction suffix as [|nt' suffix IH]; intros prefix nt stackings.
  - simpl. destruct nt; by rewrite app_nil_r.
  - assert (((prefix ++ [nt]) ++ nt' :: suffix) !! length prefix = Some nt)
      as Hnt.
    { rewrite <- app_assoc. by apply list_lookup_middle. }
    assert (((prefix ++ [nt]) ++ nt' :: suffix) !! S (length prefix)
            = Some nt') as Hnt'.
    { apply list_lookup_middle. rewrite length_app. simpl. lia. }
    specialize (IH (prefix ++ [nt]) nt').
    rewrite <- (app_assoc (prefix ++ [nt]) [nt'] suffix) in IH.
    rewrite length_app in IH. cbn [length app] in IH.
    replace (length prefix + 1)%nat with (S (length prefix)) in IH by lia.
    cbn [length seq foldl]. unfold stack_pair_step at 2.
    replace (S (length prefix) - 1)%nat with (length prefix) by lia.
    rewrite Hnt, Hnt', IH.
    destruct nt as [nt1|], nt' as [nt2|]; cbn [adjacent_resolved]; try done.
    by rewrite <- app_assoc.
Qed.

Lemma stack_step_adjacent structure3d stackings stack :
  stack_step full_name structure3d stackings stack
  = stackings ++ adjacent_resolved (stack_nts full_name structure3d stack).
Proof.
  unfold stack_step. fold (stack_nts full_name structure3d stack).
  destruct (stack_nts full_name structure3d stack) as [|nt suffix].
  - simpl. by rewrite app_nil_r.
  - replace (length (nt :: suffix) - 1)%nat with (length suffix)
      by (simpl; lia).
    apply (stack_pair_loop suffix [] nt).
Qed.

Lemma adjacent_resolved_all nts :
  Forall is_Some nts →
  length (@adjacent_resolved Residue StackingTopology nts)
  = (length nts - 1)%nat.
Proof.
  induction 1 as [|nt1 rest [x ->] Hrest IH]; [done|].
  destruct Hrest as [|nt2 rest [y ->] Hrest]; [done|].
  cbn [adjacent_resolved length] in *. rewrite IH. lia.
Qed.

Lemma adjacent_resolved_bound nts :
  (length (@adjacent_resolved Residue StackingTopology nts)
   ≤ resolved_count nts - 1)%nat.
Proof.
  unfold resolved_count.
  induction nts as [|[x|] rest IH]; [done| |done].
  destruct rest as [|[y|] rest]; cbn [adjacent_resolved omap list_omap length id] in *;
    lia.
Qed.

Lemma stack_loop_adjacent structure3d stackings (stacks : list DssrStack) :
  foldl (stack_step full_name structure3d) stackings stacks
  = stackings
    ++ concat (map (λ stack,
                      adjacent_resolved
                        (stack_nts full_name structure3d stack)) stacks).
Proof.
  revert stackings. induction stacks as [|stack stacks IH]; intros stackings.
  - simpl. by rewrite app_nil_r.
  - cbn [foldl map concat]. by rewrite IH, stack_step_adjacent, <- app_assoc.
Qed.

(** C9 (amended). For every declared stack the descriptor list is split,
    each token is resolved, and one stacking relation is produced for
    each pair of adjacent tokens that both resolve, in order. A stack
    whose [k] tokens all resolve gives [k - 1] relations; in general a
    stack with [k] resolved tokens gives at most [k - 1] relations, an
    unresolved token contributing none and separating its neighbours. The
    stackings of the result are those of the stacks, one stack after the
    other. *)
Theorem stack_step_adjacent_pairs structure3d stackings stack :
  let nts := stack_nts full_name structure3d stack in
  stack_step full_name structure3d stackings stack
  = stackings ++ adjacent_resolved nts
  ∧ (Forall is_Some nts →
     length (@adjacent_resolved Residue StackingTopology nts)
     = (length nts - 1)%nat)
  ∧ (length (@adjacent_resolved Residue StackingTopology nts)
     ≤ resolved_count nts - 1)%nat
  ∧ (∀ stacks : list DssrStack,
       foldl (stack_step full_name structure3d) stackings stacks
       = stackings
         ++ concat (map (λ stack,
                           adjacent_resolved
                             (stack_nts full_name structure3d stack))
                        stacks)).
Proof.
  cbv zeta. split_and!.
  - apply stack_step_adjacent.
  - apply adjacent_resolved_all.
  - apply adjacent_resolved_bound.
  - apply stack_loop_adjacent.
Qed.

(** ** Pairs *)

Lemma match_dssr_lw_member lw member :
  members !! lw = Some member →
  match_dssr_lw members dunder (Some lw) = inr (Some member).
Proof.
  intros Hlw. unfold match_dssr_lw, in_dir. rewrite Hlw.
  rewrite (bool_decide_true (is_Some (Some member))) by eauto.
  by rewrite orb_true_r.
Qed.

Lemma match_dssr_lw_unknown lw :
  lw ∉ dunder → members !! lw = None →
  match_dssr_lw members dunder (Some lw) = inr None.
Proof.
  intros Hdunder Hlw. unfold match_dssr_lw, in_dir. rewrite Hlw.
  rewrite bool_decide_false by done.
  by rewrite bool_decide_false by (by intros [? ?]).
Qed.

(** A name that [dir] lists and that is no member raises [KeyError]. *)
Lemma match_dssr_lw_dunder lw :
  lw ∈ dunder → members !! lw = None →
  match_dssr_lw members dunder (Some lw) = inl (KeyError lw).
Proof.
  intros Hdunder Hlw. unfold match_dssr_lw, in_dir. rewrite Hlw.
  by rewrite bool_decide_true by done.
Qed.

Lemma pair_step_resolved structure3d
    (base_pairs : list (@BasePair Residue LeontisWesthof Saenger)) pair :
  (∀ lw, pair_LW pair = Some lw → lw ∈ dunder → is_Some (members !! lw)) →
  pair_step full_name members dunder structure3d base_pairs pair
  = inr (base_pairs
         ++ option_list (resolved_pair full_name members structure3d pair)).
Proof.
  intros Hcode. unfold pair_step, resolved_pair.
  destruct (pair_LW pair) as [lw|] eqn:Hlw; cbn [mbind option_bind].
  - destruct (members !! lw) as [member|] eqn:Hmember.
    + rewrite (match_dssr_lw_member lw member) by done.
      cbn [mbind result_bind].
      destruct (match_dssr_name_to_residue _ _ (pair_nt1 pair)),
        (match_dssr_name_to_residue _ _ (pair_nt2 pair));
        cbn; by rewrite ?app_nil_r.
    + rewrite match_dssr_lw_unknown; [|intros Hin|done].
      * cbn [mbind result_bind].
        destruct (match_dssr_name_to_residue _ _ (pair_nt1 pair)),
          (match_dssr_name_to_residue _ _ (pair_nt2 pair));
          cbn; by rewrite ?app_nil_r.
      * destruct (Hcode lw eq_refl Hin) as [? ?]. congruence.
  - cbn [match_dssr_lw mbind result_bind].
    destruct (match_dssr_name_to_residue _ _ (pair_nt1 pair)),
      (match_dssr_name_to_residue _ _ (pair_nt2 pair));
      cbn; by rewrite ?app_nil_r.
Qed.

Lemma pair_loop_resolved structure3d
    (base_pairs : list (@BasePair Residue LeontisWesthof Saenger))
    (pairs : list DssrPair) :
  (∀ pair lw, pair ∈ pairs → pair_LW pair = Some lw → lw ∈ dunder →
     is_Some (members !! lw)) →
  for_each (pair_step full_name members dunder structure3d) base_pairs pairs
  = inr (base_pairs
         ++ omap (resolved_pair full_name members structure3d) pairs).
Proof.
  revert base_pairs. induction pairs as [|pair pairs IH];
    intros base_pairs Hcodes.
  - simpl. by rewrite app_nil_r.
  - cbn [for_each]. rewrite pair_step_resolved
      by (intros lw; apply Hcodes; by left).
    cbn [mbind result_bind]. rewrite IH
      by (intros p lw Hp; apply Hcodes; by right).
    rewrite <- app_assoc. do 2 f_equal.
    cbn [omap list_omap].
    by destruct (resolved_pair _ _ _ pair).
Qed.

(** Where no code is a special name of [dir], a descriptor or a code
    that does not resolve drops its own relation only. *)
Lemma read_secondary_structure_lookup_miss structure3d model dssr :
  let selected :=
    select_model (dssr_models dssr) model (dssr_toplevel dssr) in
  (∀ pair lw, pair ∈ dssr_pairs selected → pair_LW pair = Some lw →
     lw ∈ dunder → is_Some (members !! lw)) →
  read_secondary_structure_from_dssr (Saenger:=Saenger)
    (StackingTopology:=StackingTopology)
    full_name members dunder structure3d model dssr
  = inr (mkStructure2D
           (omap (resolved_pair full_name members structure3d)
                 (dssr_pairs selected))
           (concat (map (λ stack,
                           adjacent_resolved
                             (stack_nts full_name structure3d stack))
                        (dssr_stacks selected)))).
Proof.
  cbv zeta. intros Hcodes. unfold read_secondary_structure_from_dssr.
  rewrite pair_loop_resolved by done. cbn [mbind result_bind].
  by rewrite stack_loop_adjacent.
Qed.

(** A pair whose code is a special name of [dir] makes the whole import
    raise. *)
Lemma read_secondary_structure_dunder structure3d model dssr pair lw :
  pair ∈ dssr_pairs
           (select_model (dssr_models dssr) model (dssr_toplevel dssr)) →
  pair_LW pair = Some lw → lw ∈ dunder → members !! lw = None →
  raises (read_secondary_structure_from_dssr (Saenger:=Saenger)
            (StackingTopology:=StackingTopology)
            full_name members dunder structure3d model dssr).
Proof.
  intros Hpair Hlw Hdunder Hmember.
  unfold read_secondary_structure_from_dssr.
  destruct (for_each_raises
              (pair_step (Saenger:=Saenger) full_name members dunder
                         structure3d)
              [] _ pair Hpair) as [e He].
  - intros base_pairs. unfold pair_step.
    rewrite Hlw, match_dssr_lw_dunder by done. by eexists.
  - exists e. by rewrite He.
Qed.

End DssrFacts.

(** ** Grouping, reading and parsing: further properties *)

Section GrouperFacts.

Context {float : Type} `{Countable float}.

Implicit Types (atom : @Atom3D float).
Implicit Types (atoms rest : list (@Atom3D float)).
Implicit Types (modified : gmap mod_key string).
Implicit Types (residue : @Residue3D float _ _).
Implicit Types (run : (option ResidueLabel * option ResidueAuth * Z)
                      * list (@Atom3D float)).

(** A residue of the result is the residue of a run. *)
Lemma elem_of_group_atoms atoms modified residue :
  residue ∈ residues (group_atoms atoms modified) →
  ∃ i run, runs_of atoms !! i = Some run
           ∧ residue = residue_of_run modified i run.
Proof.
  rewrite group_atoms_runs.
  intros (i & run & -> & Hrun)%elem_of_lookup_imap. by exists i, run.
Qed.

Lemma runs_of_lookup atoms (i : nat) run :
  runs_of atoms !! i = Some run →
  run.2 ≠ []
  ∧ (∀ atom, atom ∈ run.2 → atom_key atom = run.1 ∧ atom ∈ atoms).
Proof.
  intros Hrun.
  pose proof (runs_of_homogeneous atoms) as Hhom.
  rewrite Forall_lookup in Hhom. destruct (Hhom i run Hrun) as [Hne Hall].
  split; [done|]. intros atom Hatom. rewrite Forall_forall in Hall.
  split; [by apply Hall|].
  rewrite <- (runs_of_concat atoms).
  apply list_elem_of_lookup_2 in Hrun.
  clear -Hrun Hatom. induction Hrun as [run runs|run run' runs _ IH].
  - rewrite fmap_cons. cbn [concat]. apply elem_of_app. by left.
  - rewrite fmap_cons. cbn [concat]. apply elem_of_app. right. by apply IH.
Qed.

(** Every residue that [group_atoms] returns has at least one atom, is
    named by [get_residue_name] from its own identifiers and the
    modification table, and holds atoms of the input only, each with the
    label, the auth identifier and the model number of the residue. *)
Theorem group_atoms_residue_sound atoms modified residue :
  residue ∈ residues (group_atoms atoms modified) →
  res_atoms residue ≠ ∅
  ∧ res_name residue
    = get_residue_name (res_auth residue) (res_label residue) modified
  ∧ ∀ atom, atom ∈ res_atoms residue →
      atom ∈ atoms
      ∧ atom_label atom = res_label residue
      ∧ atom_auth atom = res_auth residue
      ∧ atom_model atom = res_model residue.
Proof.
  intros (i & [[[label auth] model] run] & Hrun & ->)%elem_of_group_atoms.
  apply runs_of_lookup in Hrun as [Hne Hall]. cbn [fst snd] in *.
  unfold residue_of_run. cbn [res_atoms res_name res_auth res_label res_model fst snd].
  split_and!.
  - destruct run as [|atom run]; [done|].
    intros Hempty. apply (not_elem_of_empty (C:=gset Atom3D) atom).
    rewrite <- Hempty. apply elem_of_list_to_set. by left.
  - done.
  - intros atom Hatom%elem_of_list_to_set.
    destruct (Hall atom Hatom) as [[= -> -> ->] ?]. done.
Qed.

Lemma union_residues_of_runs modified (n : nat) (runs : list ((option ResidueLabel * option ResidueAuth * Z) * list (@Atom3D float))) :
  ⋃ (res_atoms <$> imap (λ i, residue_of_run modified (n + i)) runs)
  = list_to_set (concat (snd <$> runs)).
Proof.
  revert n. induction runs as [|run runs IH]; intros n; [done|].
  rewrite imap_cons, !fmap_cons, union_list_cons. cbn [concat].
  rewrite list_to_set_app_L, <- (IH (S n)). f_equal.
  do 2 f_equal. apply imap_ext. intros i r _.
  simpl. do 2 f_equal. lia.
Qed.

(** Grouping loses no atom and invents none: the atom sets of the
    residues, taken together, are the set of the atoms of the input. *)
Theorem group_atoms_union atoms modified :
  ⋃ (res_atoms <$> residues (group_atoms atoms modified))
  = list_to_set atoms.
Proof.
  rewrite group_atoms_runs. rewrite <- (runs_of_concat atoms) at 2.
  apply (union_residues_of_runs modified 0).
Qed.

(** Two residues that follow one another in the result differ in their
    key (label, auth, model): a residue is never split in two. *)
Theorem group_atoms_adjacent_keys atoms modified (i : nat) residue1 residue2 :
  residues (group_atoms atoms modified) !! i = Some residue1 →
  residues (group_atoms atoms modified) !! S i = Some residue2 →
  residue_key residue1 ≠ residue_key residue2.
Proof.
  rewrite group_atoms_runs, !list_lookup_imap.
  destruct (runs_of atoms !! i) as [run1|] eqn:Hrun1; [|done].
  destruct (runs_of atoms !! S i) as [run2|] eqn:Hrun2; [|done].
  intros [= <-] [= <-].
  pose proof (runs_of_adjacent atoms i run1 run2 Hrun1 Hrun2) as Hne.
  destruct run1 as [[[??]?]?], run2 as [[[??]?]?].
  unfold residue_key, residue_of_run. simpl in *. congruence.
Qed.

(** ** Concatenation *)

Lemma runs_of_app atoms rest (a b : @Atom3D float) :
  last atoms = Some a → head rest = Some b → atom_key a ≠ atom_key b →
  runs_of (atoms ++ rest) = runs_of atoms ++ runs_of rest.
Proof.
  intros Hlast Hhead Hkey.
  induction atoms as [|atom atoms IH]; [done|].
  destruct atoms as [|atom' atoms].
  - injection Hlast as ->.
    rewrite (runs_of_app_run (atom_key a) [a] rest); [done|done| |].
    + by repeat constructor.
    + intros b' Hb'. rewrite Hhead in Hb'. injection Hb' as <-. congruence.
  - rewrite last_cons_cons in Hlast. specialize (IH Hlast).
    destruct (runs_of_cons_head atom' atoms) as (run & runs & Hruns).
    change ((atom :: atom' :: atoms) ++ rest)
      with (atom :: ((atom' :: atoms) ++ rest)).
    change (runs_of (atom :: (atom' :: atoms) ++ rest))
      with (match runs_of ((atom' :: atoms) ++ rest) with
            | (key, run) :: runs =>
                if decide (atom_key atom = key) then (key, atom :: run) :: runs
                else (atom_key atom, [atom]) :: (key, run) :: runs
            | [] => [(atom_key atom, [atom])]
            end).
    change (runs_of (atom :: atom' :: atoms))
      with (match runs_of (atom' :: atoms) with
            | (key, run) :: runs =>
                if decide (atom_key atom = key) then (key, atom :: run) :: runs
                else (atom_key atom, [atom]) :: (key, run) :: runs
            | [] => [(atom_key atom, [atom])]
            end).
    rewrite IH, Hruns. cbn [app]. by case_decide.
Qed.

Lemma group_atoms_length atoms modified :
  length (residues (group_atoms atoms modified)) = length (runs_of atoms).
Proof. by rewrite group_atoms_runs, length_imap. Qed.

(** Grouping distributes over a concatenation at a change of key: where
    the last atom of the first list and the first atom of the second
    differ in their key, the residues of the whole are the residues of
    the first list followed by those of the second, whose indices are
    moved up by the number of residues of the first. *)
Theorem group_atoms_app atoms rest modified (a b : @Atom3D float) :
  last atoms = Some a → head rest = Some b → atom_key a ≠ atom_key b →
  residues (group_atoms (atoms ++ rest) modified)
  = residues (group_atoms atoms modified)
    ++ (shift_index (length (residues (group_atoms atoms modified)))
          <$> residues (group_atoms rest modified)).
Proof.
  intros Hlast Hhead Hkey.
  rewrite group_atoms_length, !group_atoms_runs.
  rewrite (runs_of_app atoms rest a b) by done.
  rewrite imap_app, fmap_imap. f_equal.
  apply imap_ext. intros i run _.
  unfold shift_index, residue_of_run. simpl. f_equal. lia.
Qed.

Lemma runs_of_length atoms :
  (length (runs_of atoms) ≤ length atoms)%nat
  ∧ (runs_of atoms = [] ↔ atoms = []).
Proof.
  induction atoms as [|atom atoms [IHle IHnil]]; [done|].
  destruct (runs_of_cons_head atom atoms) as (run & runs & Hruns).
  split; [|by rewrite Hruns].
  simpl. destruct (runs_of atoms) as [|[key r] rs]; [simpl; lia|].
  case_decide; simpl in *; lia.
Qed.

Lemma group_atoms_nil atoms modified :
  residues (group_atoms atoms modified) = [] ↔ atoms = [].
Proof.
  destruct (runs_of_length atoms) as [_ Hnil].
  rewrite <- Hnil, group_atoms_runs. by destruct (runs_of atoms).
Qed.

(** There are at most as many residues as atoms, and there is no residue
    exactly when there is no atom. *)
Theorem group_atoms_count atoms modified :
  (length (residues (group_atoms atoms modified)) ≤ length atoms)%nat
  ∧ (residues (group_atoms atoms modified) = [] ↔ atoms = []).
Proof.
  split; [|apply group_atoms_nil].
  rewrite group_atoms_length. apply runs_of_length.
Qed.

(** The atoms of a residue are a set: reordering a list of atoms that
    all have the same key does not change the result. *)
Theorem group_atoms_permutation atoms atoms' modified key :
  Forall (λ atom, atom_key atom = key) atoms →
  atoms ≡ₚ atoms' →
  group_atoms atoms modified = group_atoms atoms' modified.
Proof.
  intros Hall Hperm.
  assert (∀ l : list (@Atom3D float),
            l ≠ [] → Forall (λ atom, atom_key atom = key) l →
            group_atoms l modified
            = mkStructure3D [residue_of_run modified 0 (key, l)]) as Hone.
  { intros l Hne Hl.
    transitivity (mkStructure3D (residues (group_atoms l modified)));
      [by destruct l|].
    rewrite group_atoms_runs.
    rewrite <- (app_nil_r l) at 1.
    by rewrite (runs_of_app_run key l []). }
  destruct atoms as [|atom atoms].
  - by apply Permutation_nil_l in Hperm as ->.
  - assert (atoms' ≠ []) as Hne'.
    { intros ->. by apply Permutation_nil_r in Hperm. }
    rewrite !Hone; [|done|by rewrite <- Hperm|done|done].
    unfold residue_of_run. cbn [fst snd]. do 3 f_equal.
    apply set_eq. intros x. rewrite !elem_of_list_to_set. by rewrite Hperm.
Qed.

End GrouperFacts.

Section ReadFacts.

Context {float : Type} `{Countable float}.
Variable py_float : string → option float.

(** Whenever the parser chosen by [is_cif] succeeds, [read_3d_structure]
    succeeds: every residue of its structure is of the requested model
    and holds parsed atoms only, and the structure is empty exactly when
    no parsed atom is of the requested model. *)
Theorem read_3d_structure_selects_model cif_or_pdb model atoms modified :
  parse_file py_float cif_or_pdb = inr (atoms, modified) →
  ∃ structure,
    read_3d_structure py_float cif_or_pdb model = inr structure
    ∧ (∀ residue, residue ∈ residues structure →
         res_model residue = model
         ∧ ∀ atom, atom ∈ res_atoms residue → atom ∈ atoms)
    ∧ (residues structure = []
       ↔ Forall (λ atom, atom_model atom ≠ model) atoms).
Proof.
  unfold parse_file, read_3d_structure. intros ->. cbn [mbind result_bind].
  eexists. split; [done|].
  set (selected := filter (λ atom, atom_model atom = model) atoms).
  split.
  - intros residue (i & run & Hrun & ->)%elem_of_group_atoms.
    apply runs_of_lookup in Hrun as [Hne Hall].
    unfold residue_of_run. cbn [res_model res_atoms]. split.
    + destruct run as [[[label auth] m] [|atom run]]; [done|].
      destruct (Hall atom) as [[= _ _ Hm] Hin]; [by left|].
      apply list_elem_of_filter in Hin as [Hmodel _]. simpl. congruence.
    + intros atom Hatom%elem_of_list_to_set.
      destruct (Hall atom Hatom) as [_ Hin].
      by apply list_elem_of_filter in Hin as [_ ?].
  - rewrite (group_atoms_nil selected modified).
    unfold selected. rewrite Forall_forall. split.
    + intros Hnil atom Hatom Hmodel.
      apply (elem_of_nil atom). rewrite <- Hnil.
      by apply list_elem_of_filter.
    + intros Hnone. apply elem_of_nil_inv. intros atom.
      intros [Hmodel Hin]%list_elem_of_filter. by apply (Hnone atom).
Qed.

End ReadFacts.

Section PdbFacts.

Context {float : Type} `{Countable float}.
Variable py_float : string → option float.

Implicit Types (line : string) (lines before after : list string).
Implicit Types (st : @pdb_state float).

Lemma int_of_inr s n : int_of s = inr n → Py.int s = Some n.
Proof. unfold int_of. destruct (Py.int s); by intros [= <-]. Qed.

Lemma float_of_inr s x : float_of py_float s = inr x → py_float s = Some x.
Proof. unfold float_of. destruct (py_float s); by intros [= <-]. Qed.

Lemma index_inr i line c : Py.index i line = inr c → String.get i line = Some c.
Proof. unfold Py.index. destruct (String.get i line); by intros [= <-]. Qed.

Lemma model_line_not_atom line :
  Py.startswith "MODEL" line = true → is_atom_line line = false.
Proof.
  intros Hmodel. destruct (is_atom_line line) eqn:Hatom; [|done].
  apply atom_line_not_model in Hatom. congruence.
Qed.

(** What a line that is read without an exception does to the atoms and
    to the current model. *)
Lemma parse_pdb_line_cases st st' line :
  parse_pdb_line py_float st line = inr st' →
  (gives_atom line = true
   ∧ ∃ atom, atom_of_line py_float line atom
             ∧ atom_model atom = pdb_model st
             ∧ pdb_atoms st' = pdb_atoms st ++ [atom]
             ∧ pdb_model st' = pdb_model st)
  ∨ (gives_atom line = false
     ∧ pdb_atoms st' = pdb_atoms st
     ∧ (pdb_model st' = pdb_model st
        ∨ model_of_line line = Some (pdb_model st'))).
Proof.
  unfold parse_pdb_line, gives_atom, model_of_line.
  destruct (Py.startswith "MODEL" line) eqn:Hmodel.
  { rewrite (model_line_not_atom line Hmodel).
    intros (model & Hint%int_of_inr & [= <-])%bind_inr.
    right. split_and!; [done..|]. by right. }
  fold (is_atom_line line).
  destruct (is_atom_line line) eqn:Hatom.
  { intros (alt & Halt%index_inr & Hrow)%bind_inr. rewrite Halt.
    case_decide as Hblank.
    - injection Hrow as <-. right.
      rewrite bool_decide_false by congruence. by split_and!; [..|left].
    - subst alt. left. rewrite bool_decide_true by done. split; [done|].
      apply bind_inr in Hrow as (chain & Hchain%index_inr & Hrow).
      apply bind_inr in Hrow as (number & Hnumber%int_of_inr & Hrow).
      apply bind_inr in Hrow as (icode & Hicode%index_inr & Hrow).
      apply bind_inr in Hrow as (cx & Hx%float_of_inr & Hrow).
      apply bind_inr in Hrow as (cy & Hy%float_of_inr & Hrow).
      apply bind_inr in Hrow as (cz & Hz%float_of_inr & [= <-]).
      exists (mkAtom3D None
                (Some (mkResidueAuth (str chain) number (str icode)
                                     (Py.strip (Py.slice 18 20 line))))
                (pdb_model st) (Py.strip (Py.slice 12 16 line)) cx cy cz).
      split_and!; [|done..].
      unfold atom_of_line. cbn. split_and!; try done.
      by exists chain, number, icode. }
  destruct (Py.startswith "MODRES" line).
  - intros (chain & _ & Hrow)%bind_inr.
    apply bind_inr in Hrow as (number & _ & Hrow).
    apply bind_inr in Hrow as (icode & _ & [= <-]).
    right. by split_and!; [..|left].
  - intros [= <-]. right. by split_and!; [..|left].
Qed.

Lemma parse_pdb_loop_atoms lines st st' :
  for_each (parse_pdb_line py_float) st lines = inr st' →
  ∃ new,
    pdb_atoms st' = pdb_atoms st ++ new
    ∧ Forall2 (atom_of_line py_float)
              (filter (λ line, gives_atom line = true) lines) new.
Proof.
  revert st. induction lines as [|line lines IH]; intros st; simpl.
  - intros [= <-]. exists []. by rewrite app_nil_r.
  - intros (st1 & Hline & Hrest)%bind_inr.
    destruct (IH _ Hrest) as (new & Hnew & Hall).
    apply parse_pdb_line_cases in Hline
      as [(Hgives & atom & Hatom & _ & Hatoms & _)|(Hgives & Hatoms & _)].
    + exists (atom :: new). rewrite Hnew, Hatoms, <- app_assoc.
      split; [done|]. rewrite filter_cons_True by done. by constructor.
    + exists new. rewrite Hnew, Hatoms. split; [done|].
      rewrite filter_cons_False by congruence. done.
Qed.

(** A successful [parse_pdb] returns one atom for each [ATOM] or [HETATM]
    line with a blank alternate-location indicator, in the order of the
    lines: the atom has no label identifier, its name, residue name,
    chain, residue number, insertion code and coordinates are read from
    the fixed columns of its line. *)
Theorem parse_pdb_atoms_of_lines lines atoms modified :
  parse_pdb py_float lines = inr (atoms, modified) →
  Forall2 (atom_of_line py_float)
          (filter (λ line, gives_atom line = true) lines) atoms
  ∧ length atoms = length (filter (λ line, gives_atom line = true) lines).
Proof.
  unfold parse_pdb. intros (st & Hloop & [= <- <-])%bind_inr.
  apply parse_pdb_loop_atoms in Hloop as (new & -> & Hall).
  cbn [pdb_atoms app]. split; [done|].
  symmetry. by eapply Forall2_length.
Qed.

(** The model number of an atom of [parse_pdb] is 1, the initial value,
    or the number that some [MODEL] line of the file sets. *)
Theorem parse_pdb_models lines atoms modified :
  parse_pdb py_float lines = inr (atoms, modified) →
  ∀ atom, atom ∈ atoms →
    atom_model atom = 1
    ∨ ∃ line, line ∈ lines ∧ model_of_line line = Some (atom_model atom).
Proof.
  unfold parse_pdb. intros (st & Hloop & [= <- <-])%bind_inr.
  cut ((pdb_model st = 1
        ∨ ∃ line, line ∈ lines ∧ model_of_line line = Some (pdb_model st))
       ∧ ∀ atom, atom ∈ pdb_atoms st →
           atom_model atom = 1
           ∨ ∃ line, line ∈ lines
                     ∧ model_of_line line = Some (atom_model atom));
    [by intros [_ ?]|].
  pattern st. eapply for_each_inv; [| |exact Hloop]; cbv beta.
  { split; [by left|]. by intros ? ?%elem_of_nil. }
  intros s line s' Hline [Hmodel Hatoms] Hstep.
  apply parse_pdb_line_cases in Hstep
    as [(_ & atom & _ & Hm & -> & ->)|(_ & -> & [->|Hnew])].
  - split; [done|]. intros atom' [?|Hin%list_elem_of_singleton]%elem_of_app.
    + by apply Hatoms.
    + subst atom'. by rewrite Hm.
  - done.
  - split; [|done]. right. by exists line.
Qed.

Lemma parse_pdb_line_ignored st line :
  Py.startswith "MODEL" line = false →
  is_atom_line line = false →
  Py.startswith "MODRES" line = false →
  parse_pdb_line py_float st line = inr st.
Proof.
  intros Hmodel Hatom Hmodres. unfold parse_pdb_line.
  unfold is_atom_line in Hatom. by rewrite Hmodel, Hatom, Hmodres.
Qed.

(** A line that starts with none of [MODEL], [ATOM], [HETATM] and
    [MODRES] has no effect: the parse of the file is the parse of the
    file without that line, exceptions included. *)
Theorem parse_pdb_ignored_line before line after :
  Py.startswith "MODEL" line = false →
  is_atom_line line = false →
  Py.startswith "MODRES" line = false →
  parse_pdb py_float (before ++ line :: after)
  = parse_pdb py_float (before ++ after).
Proof.
  intros Hmodel Hatom Hmodres. unfold parse_pdb. rewrite !for_each_app.
  destruct (for_each _ _ before) as [e|st]; [done|].
  cbn [mbind result_bind for_each].
  by rewrite (parse_pdb_line_ignored st line).
Qed.

Lemma get_None (n : nat) s :
  (String.length s ≤ n)%nat → String.get n s = None.
Proof.
  revert n. induction s as [|c s IH]; intros n; [by destruct n|].
  destruct n as [|n]; simpl; [lia|]. intros ?. apply IH. lia.
Qed.

Lemma parse_pdb_raises before line after e r :
  parse_pdb py_float before = inr r →
  (∀ st, parse_pdb_line py_float st line = inl e) →
  parse_pdb py_float (before ++ line :: after) = inl e.
Proof.
  unfold parse_pdb. rewrite for_each_app.
  destruct (for_each _ _ before) as [e'|st]; [done|]. intros _ Hline.
  cbn [mbind result_bind for_each]. by rewrite Hline.
Qed.

(** Malformed lines abort the parse, after lines that parse: an [ATOM] or
    [HETATM] line of at most 16 characters raises [IndexError]; an atom
    line with a blank indicator, at least 22 characters and a residue
    number that is no integer raises [ValueError]; a [MODEL] line whose
    number is no integer raises [ValueError]. *)
Theorem parse_pdb_malformed_line before line after r :
  parse_pdb py_float before = inr r →
  (is_atom_line line = true → (String.length line ≤ 16)%nat →
     parse_pdb py_float (before ++ line :: after) = inl IndexError)
  ∧ (gives_atom line = true → (22 ≤ String.length line)%nat →
     Py.int (Py.strip (Py.slice 22 26 line)) = None →
     parse_pdb py_float (before ++ line :: after) = inl ValueError)
  ∧ (Py.startswith "MODEL" line = true →
     Py.int (Py.strip (Py.slice 10 14 line)) = None →
     parse_pdb py_float (before ++ line :: after) = inl ValueError).
Proof.
  intros Hbefore. split_and!.
  - intros Hatom Hshort. apply (parse_pdb_raises _ _ _ _ r Hbefore).
    intros st. unfold parse_pdb_line.
    rewrite (atom_line_not_model line Hatom).
    unfold is_atom_line in Hatom. rewrite Hatom.
    unfold Py.index. by rewrite (get_None 16 line Hshort).
  - intros [Hatom Hblank%bool_decide_eq_true]%andb_true_iff Hlong Hint.
    apply (parse_pdb_raises _ _ _ _ r Hbefore).
    intros st. unfold parse_pdb_line.
    rewrite (atom_line_not_model line Hatom).
    unfold is_atom_line in Hatom. rewrite Hatom.
    unfold Py.index. rewrite Hblank. cbn [mbind result_bind mret result_ret].
    rewrite decide_False by (by intros ?).
    destruct (String.get 21 line) as [chain|] eqn:Hchain.
    + cbn [mbind result_bind]. unfold int_of. by rewrite Hint.
    + exfalso. clear -Hchain Hlong.
      assert (∀ (n : nat) s, (n < String.length s)%nat →
                             String.get n s ≠ None) as Hget.
      { intros n s. revert n. induction s as [|c s IH]; intros [|n]; simpl;
          try lia; [done|]. intros ?. apply IH. lia. }
      apply (Hget 21%nat line); [lia|done].
  - intros Hmodel Hint. apply (parse_pdb_raises _ _ _ _ r Hbefore).
    intros st. unfold parse_pdb_line. rewrite Hmodel.
    unfold int_of. by rewrite Hint.
Qed.

End PdbFacts.

Section CifFacts.

Context {float : Type} `{Countable float}.
Variable py_float : string → option float.

Implicit Types (row_dict : gmap string string).
Implicit Types (modified : gmap mod_key string).
Implicit Types (block : gmap string DataCategory).
Implicit Types (data rest : list (gmap string DataCategory)).

(** ** Row dictionaries *)

Lemma row_dict_of_absent (attributes row : list string) (column : string) :
  column ∉ attributes → row_dict_of attributes row !! column = None.
Proof.
  unfold row_dict_of, Py.dict, Py.zip. intros Habsent.
  cut (∀ m : gmap string string,
         foldl (λ m kv, <[kv.1:=kv.2]> m) m (combine attributes row) !! column
         = m !! column).
  { intros ->. apply lookup_empty. }
  revert row. induction attributes as [|a attributes IH];
    intros row m; [done|].
  apply not_elem_of_cons in Habsent as [Hne Habsent].
  destruct row as [|v row]; [done|]. cbn [combine foldl].
  rewrite (IH Habsent). cbn [fst snd]. by rewrite lookup_insert_ne.
Qed.

Lemma getitem_inr row_dict column v :
  getitem row_dict column = inr v → row_dict !! column = Some v.
Proof. unfold getitem. destruct (row_dict !! column); by intros [= <-]. Qed.

Lemma parse_atom_row_fields row_dict atom :
  parse_atom_row py_float row_dict = inr atom →
  atom_of_row py_float row_dict atom.
Proof.
  intros Hrow. split; [by apply (parse_atom_row_model py_float)|].
  revert Hrow. unfold parse_atom_row.
  intros (n1 & _ & Hrow)%bind_inr.
  apply bind_inr in Hrow as (n2 & _ & Hrow).
  repeat case_match; try done.
  all: apply bind_inr in Hrow as (model & _ & Hrow).
  all: apply bind_inr in Hrow as (name & Hname%getitem_inr & Hrow).
  all: apply bind_inr in Hrow as (cx & Hx & Hrow).
  all: apply bind_inr in Hrow as (cy & Hy & Hrow).
  all: apply bind_inr in Hrow as (cz & Hz & [= <-]).
  all: apply bind_inr in Hx as (sx & -> %getitem_inr & Hx%(float_of_inr py_float)).
  all: apply bind_inr in Hy as (sy & -> %getitem_inr & Hy%(float_of_inr py_float)).
  all: apply bind_inr in Hz as (sz & -> %getitem_inr & Hz%(float_of_inr py_float)).
  all: by split_and!.
Qed.

(** A successful [parse_cif] returns one atom for each row of the atom
    table of the first block, in the order of the rows: the atom has the
    model number, the atom name and the coordinates of its row. *)
Theorem parse_cif_atoms_of_rows data atoms modified :
  parse_cif py_float data = inr (atoms, modified) →
  Forall2 (atom_of_row py_float) (atom_rows data) atoms
  ∧ length atoms = length (atom_rows data).
Proof.
  intros Hrows%parse_cif_atoms. split.
  - eapply Forall2_impl; [done|]. apply parse_atom_row_fields.
  - symmetry. by eapply Forall2_length.
Qed.

(** Where the atom table has no column [pdbx_PDB_model_num], every atom
    is of model 1. *)
Theorem parse_cif_default_model block rest table atoms modified :
  block !! "atom_site" = Some table →
  "pdbx_PDB_model_num" ∉ getAttributeList table →
  parse_cif py_float (block :: rest) = inr (atoms, modified) →
  Forall (λ atom, atom_model atom = 1) atoms.
Proof.
  intros Htable Hcolumn Hrows%parse_cif_atoms.
  unfold atom_rows in Hrows. rewrite Htable in Hrows.
  apply Forall2_fmap_l in Hrows.
  eapply Forall2_Forall_r; [done|].
  apply Forall_forall. intros row _ atom Hrow.
  apply parse_atom_row_model in Hrow. unfold row_model in Hrow.
  rewrite row_dict_of_absent in Hrow by done. by injection Hrow.
Qed.

(** [parse_cif] reads the first block only. A document without a block
    gives no atom and no modification. A first block without an atom
    table gives no atom and no modification when it has no row of
    modified residues, and raises [AttributeError] when it has one: the
    rows of that table are read with the column names of the atom
    table. *)
Theorem parse_cif_missing_atom_site block rest :
  parse_cif py_float [] = inr ([], ∅)
  ∧ parse_cif py_float (block :: rest) = parse_cif py_float [block]
  ∧ (block !! "atom_site" = None →
     match block !! "pdbx_struct_mod_residue" with
     | Some table =>
         match getRowList table with
         | [] => parse_cif py_float (block :: rest) = inr ([], ∅)
         | _ :: _ => parse_cif py_float (block :: rest) = inl AttributeError
         end
     | None => parse_cif py_float (block :: rest) = inr ([], ∅)
     end).
Proof.
  split_and!; [done..|]. intros Hatoms. unfold parse_cif.
  rewrite Hatoms. cbn [mbind result_bind mret result_ret].
  destruct (block !! "pdbx_struct_mod_residue") as [table|]; [|done].
  by destruct (getRowList table).
Qed.

(** ** The modification table *)

Lemma parse_mod_row_inr modified row_dict modified' :
  parse_mod_row modified row_dict = inr modified' →
  ∃ label auth,
    modified'
    = <[auth_key auth := default "n" (row_dict !! "parent_comp_id")]>
        (<[label_key label := default "n" (row_dict !! "parent_comp_id")]>
           modified)
    ∧ (row_dict !! "PDB_ins_code" = None → auth = None).
Proof.
  unfold parse_mod_row. rewrite !try_parse_int_spec.
  destruct (row_dict !! "label_seq_id") as [s1|]; [|done].
  destruct (row_dict !! "auth_seq_id") as [s2|]; [|done].
  cbn [mbind result_bind]. intros [= <-].
  eexists _, _. split; [done|]. intros ->.
  by destruct (row_dict !! "auth_asym_id"), (Py.int s2),
    (row_dict !! "auth_comp_id").
Qed.

(** The rows of modified residues are read with the column names of the
    atom table. Where that table has no column [parent_comp_id], every
    entry of the modification table is ["n"]; where moreover it has no
    column [PDB_ins_code] and there is a row of modified residues, the
    table has an entry under [None], and every residue that lacks its
    auth or its label identifier is named ["n"]. *)
Theorem parse_cif_modified_unknown block rest table atoms modified :
  block !! "atom_site" = Some table →
  "parent_comp_id" ∉ getAttributeList table →
  parse_cif py_float (block :: rest) = inr (atoms, modified) →
  (∀ key parent, modified !! key = Some parent → parent = "n")
  ∧ ("PDB_ins_code" ∉ getAttributeList table →
     ∀ mod_table,
       block !! "pdbx_struct_mod_residue" = Some mod_table →
       getRowList mod_table ≠ [] →
       modified !! KNone = Some "n"
       ∧ ∀ auth label, auth = None ∨ label = None →
           get_residue_name auth label modified = "n").
Proof.
  intros Htable Hparent. unfold parse_cif. rewrite Htable.
  intros (atoms' & _ & Hrest)%bind_inr.
  apply bind_inr in Hrest as (modified' & Hloop & [= <- <-]).
  destruct (block !! "pdbx_struct_mod_residue") as [mod_table|];
    [|injection Hloop as <-; split; [by intros ??; rewrite lookup_empty|done]].
  cbn [mbind result_bind mret result_ret] in Hloop.
  assert (∀ key parent, modified' !! key = Some parent → parent = "n")
    as Hunknown.
  { pattern modified'. eapply for_each_inv; [| |exact Hloop]; cbv beta.
    { intros ??. by rewrite lookup_empty. }
    intros m row m' _ Hm (label & auth & -> & _)%parse_mod_row_inr key parent.
    rewrite row_dict_of_absent by done. cbn [default].
    rewrite !lookup_insert. repeat case_decide; [by intros [= <-]..|apply Hm]. }
  split; [done|].
  - intros Hins mod_table' [= <-] Hrows.
    assert (modified' !! KNone = Some "n") as Hnone.
    { destruct (getRowList mod_table) as [|row rows] using rev_ind; [done|].
      clear IHrows Hrows. rewrite for_each_app in Hloop.
      apply bind_inr in Hloop as (m & _ & Hlast). cbn [for_each] in Hlast.
      apply bind_inr in Hlast as (m' & Hrow & [= <-]).
      apply parse_mod_row_inr in Hrow as (label & auth & -> & Hauth).
      rewrite Hauth by (by apply row_dict_of_absent).
      rewrite row_dict_of_absent by done. apply lookup_insert_eq. }
    split; [done|]. intros auth label Hmissing. unfold get_residue_name.
    destruct (modified' !! auth_key auth) as [parent|] eqn:Hauth.
    { by rewrite (Hunknown _ _ Hauth). }
    destruct Hmissing as [->| ->];
      [cbn [auth_key from_option] in Hauth; congruence|].
    cbn [label_key from_option]. by rewrite Hnone.
Qed.

(** A row of modified residues with a complete auth scheme is stored
    under its auth identifier: after the row, a residue with that
    identifier is named by the lower-cased parent code of the row, ["n"]
    when the row has none. *)
Theorem parse_mod_row_resolves modified row_dict modified'
    chain number_text number name icode :
  parse_mod_row modified row_dict = inr modified' →
  row_dict !! "auth_asym_id" = Some chain →
  row_dict !! "auth_seq_id" = Some number_text →
  Py.int number_text = Some number →
  row_dict !! "auth_comp_id" = Some name →
  row_dict !! "PDB_ins_code" = Some icode →
  ∀ label,
    get_residue_name (Some (mkResidueAuth chain number icode name)) label
                     modified'
    = Py.lower (default "n" (row_dict !! "parent_comp_id")).
Proof.
  unfold parse_mod_row. rewrite !try_parse_int_spec.
  destruct (row_dict !! "label_seq_id") as [s1|]; [|done].
  intros Hrow Hchain Hseq Hint Hname Hicode label. revert Hrow.
  rewrite Hchain, Hseq, Hname, Hicode. cbn [mbind result_bind].
  rewrite Hint. intros [= <-].
  unfold get_residue_name. cbn [auth_key from_option].
  by rewrite lookup_insert_eq.
Qed.

End CifFacts.

Section DssrImportFacts.

Context {Residue LeontisWesthof Saenger StackingTopology : Type}.
Variable full_name : Residue → option string.
Variable members : gmap string LeontisWesthof.
Variable dunder : list string.

Implicit Types (structure3d : list Residue) (nts : list (option Residue)).
Implicit Types (residue : Residue) (pair : DssrPair).

(** ** Descriptors *)

Lemma split_nonempty sep s : Py.split sep s ≠ [].
Proof.
  destruct s as [|c s]; [done|]. cbn [Py.split].
  case_decide; [done|]. by destruct (Py.split sep s).
Qed.

Lemma split_app_sep sep (prefix rest : string) :
  Py.split sep (String.append prefix (String sep rest))
  = Py.split sep prefix ++ Py.split sep rest.
Proof.
  induction prefix as [|c prefix IH].
  - change (String.append "" (String sep rest)) with (String sep rest).
    cbn [Py.split app]. by case_decide.
  - change (String.append (String c prefix) (String sep rest))
      with (String c (String.append prefix (String sep rest))).
    cbn [Py.split app].
    case_decide; [by rewrite IH|]. rewrite IH.
    pose proof (split_nonempty sep prefix).
    by destruct (Py.split sep prefix).
Qed.

Lemma last_app_nonempty {A} (l k : list A) d :
  k ≠ [] → List.last (l ++ k) d = List.last k d.
Proof.
  intros Hk. induction l as [|x l IH]; [done|].
  cbn [app List.last]. rewrite IH.
  destruct (l ++ k) eqn:Happ; [|done].
  by apply app_eq_nil in Happ as [_ ->].
Qed.

Lemma find_first {A} (f : A → bool) (l : list A) x :
  List.find f l = Some x →
  f x = true
  ∧ ∃ before after, l = before ++ x :: after
                    ∧ Forall (λ y, f y = false) before.
Proof.
  induction l as [|y l IH]; [done|]. cbn [List.find].
  destruct (f y) eqn:Hy.
  - intros [= <-]. split; [done|]. by exists [], l.
  - intros [Hx (before & after & -> & Hbefore)]%IH. split; [done|].
    exists (y :: before), after. split; [done|]. by constructor.
Qed.

Lemma find_none {A} (f : A → bool) (l : list A) :
  List.find f l = None ↔ Forall (λ y, f y = false) l.
Proof.
  induction l as [|y l IH]; cbn [List.find]; [by split|].
  destruct (f y) eqn:Hy.
  - split; [done|]. intros [Hfalse _]%Forall_cons. congruence.
  - rewrite IH. split; [by constructor|]. by intros [_ ?]%Forall_cons.
Qed.

Lemma match_dssr_name_elem_of structure3d nt_id residue :
  match_dssr_name_to_residue full_name structure3d nt_id = Some residue →
  residue ∈ structure3d.
Proof.
  destruct nt_id as [s|]; [|done]. cbn [match_dssr_name_to_residue].
  intros [_ (before & after & -> & _)]%find_first.
  apply elem_of_app. right. by left.
Qed.

(** [match_dssr_name_to_residue] returns the first residue of the
    structure whose full name is the part of the descriptor after its
    last colon; it returns nothing when the descriptor is absent or no
    residue has that name. *)
Theorem match_dssr_name_to_residue_first structure3d nt_id :
  match match_dssr_name_to_residue full_name structure3d nt_id with
  | Some residue =>
      ∃ descriptor before after,
        nt_id = Some descriptor
        ∧ full_name residue
          = Some (List.last (Py.split ":" descriptor) "")
        ∧ structure3d = before ++ residue :: after
        ∧ Forall (λ other, full_name other
                           ≠ Some (List.last (Py.split ":" descriptor) ""))
                 before
  | None =>
      ∀ descriptor, nt_id = Some descriptor →
        Forall (λ other, full_name other
                         ≠ Some (List.last (Py.split ":" descriptor) ""))
               structure3d
  end.
Proof.
  destruct (match_dssr_name_to_residue _ _ _) as [residue|] eqn:Hmatch.
  - destruct nt_id as [s|]; [|done]. cbn [match_dssr_name_to_residue] in Hmatch.
    apply find_first in Hmatch as [Hname (before & after & -> & Hbefore)].
    exists s, before, after. split_and!; [done| |done|].
    + by apply bool_decide_eq_true in Hname.
    + eapply Forall_impl; [done|]. intros other Hother.
      by apply bool_decide_eq_false in Hother.
  - intros s ->. cbn [match_dssr_name_to_residue] in Hmatch.
    apply find_none in Hmatch.
    eapply Forall_impl; [done|]. intros other Hother.
    by apply bool_decide_eq_false in Hother.
Qed.

(** Whatever precedes a colon of a descriptor is ignored. *)
Theorem match_dssr_name_prefix structure3d (prefix name : string) :
  match_dssr_name_to_residue full_name structure3d
    (Some (String.append prefix (String ":" name)))
  = match_dssr_name_to_residue full_name structure3d (Some name).
Proof.
  cbn [match_dssr_name_to_residue].
  by rewrite split_app_sep, last_app_nonempty by apply split_nonempty.
Qed.

(** ** The choice of the model *)

(** The pairs and stacks are those of the first entry of ["models"]
    whose number is the requested one, none when that entry has no
    ["parameters"]; where no entry has that number, they are those of
    the document itself. *)
Theorem select_model_first_match (models : list DssrModel) model
    (dssr : DssrParameters) :
  (Forall (λ result, dssr_model result ≠ Some model) models →
   select_model models model dssr = dssr)
  ∧ (∀ before result after,
       models = before ++ result :: after →
       Forall (λ other, dssr_model other ≠ Some model) before →
       dssr_model result = Some model →
       select_model models model dssr
       = default (mkDssrParameters [] []) (dssr_parameters result)).
Proof.
  split.
  - induction 1 as [|result models Hresult _ IH]; [done|].
    cbn [select_model]. by rewrite decide_False.
  - intros before result after -> Hbefore Hresult.
    induction Hbefore as [|other before Hother _ IH]; cbn [app select_model].
    + by rewrite decide_True.
    + by rewrite decide_False.
Qed.

(** ** The relations of the result *)

Lemma elem_of_adjacent_resolved nts
    (stacking : @Stacking Residue StackingTopology) :
  stacking ∈ adjacent_resolved nts →
  Some (st_nt1 stacking) ∈ nts ∧ Some (st_nt2 stacking) ∈ nts
  ∧ st_topology stacking = None.
Proof.
  induction nts as [|nt1 rest IH]; [by intros ?%elem_of_nil|].
  cbn [adjacent_resolved]. intros Hin.
  assert (stacking ∈ adjacent_resolved rest →
          Some (st_nt1 stacking) ∈ nt1 :: rest
          ∧ Some (st_nt2 stacking) ∈ nt1 :: rest
          ∧ st_topology stacking = None) as Hrest.
  { intros (? & ? & ?)%IH. split_and!; [by right..|done]. }
  destruct nt1 as [nt1|]; [|by apply Hrest].
  destruct rest as [|[nt2|] rest]; [by apply Hrest| |by apply Hrest].
  apply elem_of_cons in Hin as [->|Hin]; [|by apply Hrest].
  cbn [st_nt1 st_nt2 st_topology]. split_and!; [by left|by right; left|done].
Qed.

Lemma match_dssr_lw_inr lw member :
  match_dssr_lw members dunder lw = inr (Some member) →
  ∃ code, lw = Some code ∧ members !! code = Some member.
Proof.
  destruct lw as [code|]; [|done]. cbn [match_dssr_lw].
  destruct (in_dir _ _ _); [|done].
  destruct (members !! code) as [member'|] eqn:Hcode; [|done].
  intros [= <-]. by exists code.
Qed.

Lemma match_dssr_lw_inl lw e :
  match_dssr_lw members dunder lw = inl e →
  ∃ code, lw = Some code ∧ code ∈ dunder ∧ members !! code = None
          ∧ e = KeyError code.
Proof.
  destruct lw as [code|]; [|done]. cbn [match_dssr_lw]. unfold in_dir.
  destruct (members !! code) as [member|] eqn:Hcode.
  { by case_match. }
  rewrite (bool_decide_false (is_Some None)) by (by intros [? ?]).
  rewrite orb_false_r. case_bool_decide; [|done].
  intros [= <-]. by exists code.
Qed.

(** In the result of a successful import every base pair joins two
    residues of the structure with a member of the enumeration and no
    Saenger class, and every stacking joins two residues of the structure
    with no topology. *)
Theorem read_secondary_structure_residues structure3d model dssr
    (structure2d : @Structure2D Residue LeontisWesthof Saenger
                                StackingTopology) :
  read_secondary_structure_from_dssr full_name members dunder
    structure3d model dssr = inr structure2d →
  Forall (λ base_pair,
            bp_nt1 base_pair ∈ structure3d
            ∧ bp_nt2 base_pair ∈ structure3d
            ∧ (∃ code, members !! code = Some (bp_lw base_pair))
            ∧ bp_saenger base_pair = None)
         (base_pairs structure2d)
  ∧ Forall (λ stacking,
              st_nt1 stacking ∈ structure3d
              ∧ st_nt2 stacking ∈ structure3d
              ∧ st_topology stacking = None)
           (stackings structure2d).
Proof.
  unfold read_secondary_structure_from_dssr.
  intros (pairs & Hpairs & [= <-])%bind_inr. cbn [base_pairs stackings].
  split.
  - pattern pairs. eapply for_each_inv; [| |exact Hpairs]; cbv beta.
    { constructor. }
    intros acc pair acc' _ Hacc. unfold pair_step.
    intros (lw & Hlw & Hstep)%bind_inr.
    destruct (match_dssr_name_to_residue _ _ (pair_nt1 pair))
      as [nt1|] eqn:Hnt1; [|by injection Hstep as <-].
    destruct (match_dssr_name_to_residue _ _ (pair_nt2 pair))
      as [nt2|] eqn:Hnt2; [|by injection Hstep as <-].
    destruct lw as [member|]; [|by injection Hstep as <-].
    injection Hstep as <-. apply Forall_app. split; [done|].
    apply Forall_singleton. cbn [bp_nt1 bp_nt2 bp_lw bp_saenger].
    apply match_dssr_lw_inr in Hlw as (code & _ & Hcode).
    split_and!; [by eapply match_dssr_name_elem_of..|by exists code|done].
  - rewrite stack_loop_adjacent. cbn [app].
    apply Forall_forall. intros stacking Hin.
    apply list_elem_of_In, in_concat in Hin as (relations & Hstack & Hin).
    apply in_map_iff in Hstack as (stack & <- & _).
    apply list_elem_of_In, elem_of_adjacent_resolved in Hin
      as (Hnt1 & Hnt2 & Htopology).
    unfold stack_nts in Hnt1, Hnt2.
    apply list_elem_of_In, in_map_iff in Hnt1 as (token1 & Hnt1 & _).
    apply list_elem_of_In, in_map_iff in Hnt2 as (token2 & Hnt2 & _).
    split_and!; [by eapply match_dssr_name_elem_of..|done].
Qed.

(** ** Exceptions *)

Lemma for_each_inl {S A} (body : S → A → result S) (s : S) (l : list A) e :
  for_each body s l = inl e →
  ∃ before x after s',
    l = before ++ x :: after
    ∧ for_each body s before = inr s' ∧ body s' x = inl e.
Proof.
  revert s. induction l as [|x l IH]; intros s; [done|]. cbn [for_each].
  destruct (body s x) as [e'|s1] eqn:Hx.
  - intros [= <-]. by exists [], x, l, s.
  - intros (before & y & after & s' & -> & Hbefore & Hy)%IH.
    exists (x :: before), y, after, s'. split_and!; [done| |done].
    cbn [for_each]. by rewrite Hx.
Qed.

Lemma pair_step_dunder structure3d
    (acc : list (@BasePair Residue LeontisWesthof Saenger)) pair code :
  pair_LW pair = Some code → code ∈ dunder → members !! code = None →
  pair_step full_name members dunder structure3d acc pair
  = inl (KeyError code).
Proof.
  intros Hcode Hdunder Hmember. unfold pair_step.
  by rewrite Hcode, match_dssr_lw_dunder.
Qed.

(** The import raises exactly when some pair has for its code a special
    name of [dir] that is no member, and the exception is the [KeyError]
    of the first such code; descriptors that do not resolve and stacks
    never raise. *)
Theorem read_secondary_structure_errors structure3d model dssr e :
  let selected :=
    select_model (dssr_models dssr) model (dssr_toplevel dssr) in
  read_secondary_structure_from_dssr (Saenger:=Saenger)
    (StackingTopology:=StackingTopology)
    full_name members dunder structure3d model dssr = inl e
  ↔ ∃ before pair after code,
      dssr_pairs selected = before ++ pair :: after
      ∧ Forall (λ earlier, ∀ lw, pair_LW earlier = Some lw → lw ∈ dunder →
                              is_Some (members !! lw)) before
      ∧ pair_LW pair = Some code ∧ code ∈ dunder
      ∧ members !! code = None ∧ e = KeyError code.
Proof.
  cbv zeta. unfold read_secondary_structure_from_dssr. split.
  - destruct (for_each _ _ _) as [e'|pairs] eqn:Hloop; [|done].
    intros [= ->].
    cut (∀ (pairs : list DssrPair)
           (acc : list (@BasePair Residue LeontisWesthof Saenger)),
           for_each (pair_step full_name members dunder structure3d)
                    acc pairs = inl e →
           ∃ before pair after code,
             pairs = before ++ pair :: after
             ∧ Forall (λ earlier, ∀ lw, pair_LW earlier = Some lw →
                          lw ∈ dunder → is_Some (members !! lw)) before
             ∧ pair_LW pair = Some code ∧ code ∈ dunder
             ∧ members !! code = None ∧ e = KeyError code).
    { intros Hcut. by eapply Hcut. }
    clear Hloop. intros pairs. induction pairs as [|pair pairs IH];
      intros acc; [done|]. cbn [for_each].
    destruct (pair_step _ _ _ _ acc pair) as [e'|acc'] eqn:Hstep.
    + intros [= ->]. unfold pair_step in Hstep.
      destruct (match_dssr_lw _ _ _) as [e'|lw] eqn:Hlw;
        [|cbn [mbind result_bind] in Hstep; by repeat case_match].
      injection Hstep as ->.
      apply match_dssr_lw_inl in Hlw as (code & ? & ? & ? & ?).
      by exists [], pair, pairs, code.
    + intros (before & bad & after & code & -> & Hbefore & Hrest)%IH.
      exists (pair :: before), bad, after, code. split_and!; try tauto.
      constructor; [|done]. intros lw Hlw Hdunder.
      destruct (members !! lw) eqn:Hmember; [done|].
      by rewrite (pair_step_dunder _ _ _ lw) in Hstep.
  - intros (before & pair & after & code & -> & Hbefore & Hcode & Hdunder
            & Hmember & ->).
    rewrite for_each_app, pair_loop_resolved.
    + cbn [mbind result_bind for_each].
      by rewrite (pair_step_dunder _ _ _ code).
    + intros earlier lw Hin. by apply (proj1 (Forall_forall _ _) Hbefore).
Qed.

End DssrImportFacts.

(** * Examples *)



(** C1 at an atom of model 1 that joins the residue of the atom before
    it. *)
Lemma group_atoms_contiguous_runs_witness :
  Forall (λ atom : @Atom3D Z, atom_model atom = 1) [example_atom_model1]
  ∧ ∃ closed current,
      residues (group_atoms [example_atom_model1] ∅) = closed ++ [current]
      ∧ residues (group_atoms ([example_atom_model1] ++ [example_atom_op1]) ∅)
        = closed ++ [mkResidue3D (res_index current) (res_name current)
                       (res_model current) (res_label current)
                       (res_auth current)
                       (res_atoms current ∪ {[example_atom_op1]})].
Proof.
  assert (Forall (λ atom : @Atom3D Z, atom_model atom = 1)
                 [example_atom_model1]) as Hmodel
    by (repeat constructor).
  split; [exact Hmodel|].
  destruct (group_atoms_contiguous_runs [example_atom_model1] ∅ 1 Hmodel)
    as (_ & _ & _ & _ & Hjoin & _).
  apply (Hjoin example_atom_op1 example_atom_model1); reflexivity.
Defined.

(** Why the atoms are taken of one model: on a list that mixes two
    models, which [read_3d_structure] never passes on, the second atom
    has the label and the auth identifier of the first, and it opens a
    second residue, because its model number differs. *)
Lemma group_atoms_mixed_models :
  (atom_label example_atom_model2, atom_auth example_atom_model2)
  = (atom_label example_atom_model1, atom_auth example_atom_model1)
  ∧ residues (group_atoms [example_atom_model1; example_atom_model2] ∅)
    = [mkResidue3D 1 "G" 1 None (Some example_auth) {[example_atom_model1]};
       mkResidue3D 2 "G" 2 None (Some example_auth) {[example_atom_model2]}].
Proof.
  split; [reflexivity|].
  change [example_atom_model1; example_atom_model2]
    with ([example_atom_model1] ++ [example_atom_model2]).
  rewrite (group_atoms_split [example_atom_model1] ∅
             example_atom_model2 example_atom_model1);
    [|reflexivity|by intros [=]].
  replace (residues (group_atoms [example_atom_model1] ∅))
    with [mkResidue3D 1 "G" 1 None (Some example_auth)
            (list_to_set [example_atom_model1])] by reflexivity.
  rewrite list_to_set_singleton_L. reflexivity.
Qed.

(** C3 at a table without any chain column: the parse fails. *)
Lemma parse_cif_identifier_errors_witness :
  raises (parse_cif Py.int example_no_chain_cif).
Proof.
  destruct (parse_cif_identifier_errors Py.int example_no_chain_cif)
    as [Hraises _].
  apply (Hraises
           (row_dict_of
              ["label_seq_id"; "label_comp_id"; "auth_seq_id";
               "auth_comp_id"; "label_atom_id"; "Cartn_x"; "Cartn_y";
               "Cartn_z"]
              ["1"; "G"; "1"; "G"; "P"; "1"; "2"; "3"])).
  - apply list_elem_of_singleton. reflexivity.
  - left. split; reflexivity.
Defined.

(** C3 as stated fails: in this document neither row has a complete
    label scheme or a complete auth scheme, and the parse returns an
    atom without identifiers and a modification table with an entry
    under [None]. *)
Lemma parse_cif_incomplete_schemes_counterexample :
  Forall (λ row_dict,
            ¬ label_complete row_dict
            ∧ ¬ auth_complete row_dict "pdbx_PDB_ins_code"
            ∧ ¬ auth_complete row_dict "PDB_ins_code")
         (atom_rows example_incomplete_cif)
  ∧ parse_cif Py.int example_incomplete_cif
    = inr ([mkAtom3D None None 1 "O" 1 2 3], {[ KNone := "n" ]}).
Proof.
  split; [|reflexivity].
  repeat constructor.
  - intros (_ & Hnumber & _). apply Hnumber. reflexivity.
  - intros (_ & _ & [name Hname] & _). vm_compute in Hname. discriminate.
  - intros (_ & _ & [name Hname] & _). vm_compute in Hname. discriminate.
Qed.

(** C5 fails on the code: without the column [label_seq_id], the auth
    scheme being complete, the parse raises [TypeError]. *)
Lemma parse_cif_missing_seq_column :
  parse_cif Py.int example_no_label_seq_cif = inl TypeError.
Proof. reflexivity. Qed.



(** C7 at a table with two rows of model 1 and one row of model 2. *)
Lemma read_3d_structure_atom_count_witness :
  ∃ structure,
    read_3d_structure Py.int example_cif 1 = inr structure
    ∧ atom_count structure
      = length (filter (λ row_dict, row_model row_dict = Some 1)
                       (atom_rows (readFile example_cif))).
Proof.
  eapply (read_3d_structure_atom_count Py.int example_cif 1).
  - reflexivity.
  - reflexivity.
  - vm_compute. apply NoDup_cons. split; [|apply NoDup_singleton].
    intros Hin%list_elem_of_singleton. discriminate.
Defined.

(** C7 as stated fails: the document is tag-based and parses, its atom
    table has two different rows of model 1, and the one residue of the
    structure holds one atom, the two rows giving equal atoms. *)
Lemma read_3d_structure_duplicate_rows_counterexample :
  is_cif example_duplicate_cif = true
  ∧ NoDup (atom_rows (readFile example_duplicate_cif))
  ∧ length (filter (λ row_dict, row_model row_dict = Some 1)
                   (atom_rows (readFile example_duplicate_cif))) = 2%nat
  ∧ parse_cif Py.int (readFile example_duplicate_cif)
    = inr ([example_duplicate_atom; example_duplicate_atom], ∅)
  ∧ ∃ structure,
      read_3d_structure Py.int example_duplicate_cif 1 = inr structure
      ∧ atom_count structure = 1%nat.
Proof.
  split_and!; [reflexivity| |reflexivity|reflexivity|].
  - apply NoDup_cons. split; [|apply NoDup_singleton].
    intros Heq%list_elem_of_singleton.
    apply (f_equal (λ row_dict : gmap string string, row_dict !! "id"))
      in Heq.
    discriminate Heq.
  - exists (mkStructure3D
              [mkResidue3D 1 "G" 1 (Some (mkResidueLabel "A" 1 "G"))
                 (Some (mkResidueAuth "A" 1 "?" "G"))
                 (list_to_set
                    [example_duplicate_atom; example_duplicate_atom])]).
    split; [reflexivity|].
    unfold atom_count. cbn [residues res_atoms fmap list_fmap sum_list].
    rewrite list_to_set_cons, list_to_set_singleton_L, union_idemp_L.
    by rewrite size_singleton.
Qed.

(** C8 fails on the code: the code ["__class__"] of the first pair is no
    member of the enumeration, and the import raises [KeyError] instead
    of dropping the pair and producing the second one. *)
Lemma read_secondary_structure_bad_code :
  read_secondary_structure_from_dssr (Saenger:=unit) (StackingTopology:=unit)
    example_full_name example_members example_dunder example_structure 1
    example_dssr_bad_code
  = inl (KeyError "__class__").
Proof. reflexivity. Qed.

(** C9 at a stack whose two tokens resolve: one relation. *)
Lemma stack_step_adjacent_pairs_witness :
  length (adjacent_resolved (StackingTopology:=unit)
            (stack_nts example_full_name example_structure
                       example_stack_resolved))
  = (length (stack_nts example_full_name example_structure
                       example_stack_resolved) - 1)%nat.
Proof.
  destruct (stack_step_adjacent_pairs (StackingTopology:=unit)
              example_full_name example_structure [] example_stack_resolved)
    as (_ & Hall & _).
  apply Hall. vm_compute. repeat constructor; eexists; reflexivity.
Defined.

(** C9 as stated fails: two of the three tokens of this stack resolve,
    and the stack gives no relation at all. *)
Lemma stack_step_interleaved_counterexample :
  stack_nts example_full_name example_structure example_stack
  = [Some "1.A"; None; Some "1.G"]
  ∧ resolved_count
      (stack_nts example_full_name example_structure example_stack) = 2%nat
  ∧ stack_step (StackingTopology:=unit) example_full_name example_structure
               [] example_stack = [].
Proof. split_and!; reflexivity. Qed.


(** ** Further examples *)

(** The residue of a single atom is sound. *)
Lemma group_atoms_residue_sound_witness :
  res_atoms example_residue ≠ ∅
  ∧ res_name example_residue
    = get_residue_name (res_auth example_residue)
                       (res_label example_residue) ∅
  ∧ ∀ atom, atom ∈ res_atoms example_residue →
      atom ∈ [example_atom_model1]
      ∧ atom_label atom = res_label example_residue
      ∧ atom_auth atom = res_auth example_residue
      ∧ atom_model atom = res_model example_residue.
Proof.
  apply (group_atoms_residue_sound [example_atom_model1] ∅ example_residue).
  apply list_elem_of_singleton. reflexivity.
Defined.

(** Two atoms that differ in their model number give two residues with
    different keys. *)
Lemma group_atoms_adjacent_keys_witness :
  residue_key example_residue ≠ residue_key example_residue_model2.
Proof.
  apply (group_atoms_adjacent_keys
           [example_atom_model1; example_atom_model2] ∅ 0);
    reflexivity.
Defined.

(** Grouping two atoms of different models, one list after the other. *)
Lemma group_atoms_app_witness :
  residues (group_atoms ([example_atom_model1] ++ [example_atom_model2]) ∅)
  = residues (group_atoms [example_atom_model1] ∅)
    ++ (shift_index (length (residues (group_atoms [example_atom_model1] ∅)))
          <$> residues (group_atoms [example_atom_model2] ∅)).
Proof.
  apply (group_atoms_app [example_atom_model1] [example_atom_model2] ∅
           example_atom_model1 example_atom_model2);
    [reflexivity|reflexivity|discriminate].
Defined.

(** The two atoms of one residue in either order. *)
Lemma group_atoms_permutation_witness :
  group_atoms [example_atom_model1; example_atom_op1] ∅
  = group_atoms [example_atom_op1; example_atom_model1] ∅.
Proof.
  apply (group_atoms_permutation _ _ ∅ (atom_key example_atom_model1)).
  - repeat constructor.
  - apply perm_swap.
Defined.

(** Model 1 of the complete atom table. *)
Lemma read_3d_structure_selects_model_witness :
  ∃ atoms modified,
    parse_file Py.int example_cif = inr (atoms, modified)
    ∧ ∃ structure,
        read_3d_structure Py.int example_cif 1 = inr structure
        ∧ (∀ residue, residue ∈ residues structure →
             res_model residue = 1
             ∧ ∀ atom, atom ∈ res_atoms residue → atom ∈ atoms)
        ∧ (residues structure = []
           ↔ Forall (λ atom, atom_model atom ≠ 1) atoms).
Proof.
  eexists _, _. split; [reflexivity|].
  eapply (read_3d_structure_selects_model Py.int example_cif 1).
  reflexivity.
Defined.

(** An atom line and a [MODRES] line: one atom. *)
Lemma parse_pdb_atoms_of_lines_witness :
  ∃ atoms modified,
    parse_pdb Py.int [example_atom_line; example_modres_line]
    = inr (atoms, modified)
    ∧ Forall2 (atom_of_line Py.int)
              (filter (λ line, gives_atom line = true)
                      [example_atom_line; example_modres_line]) atoms
    ∧ length atoms
      = length (filter (λ line, gives_atom line = true)
                       [example_atom_line; example_modres_line]).
Proof.
  eexists _, _. split; [reflexivity|].
  eapply (parse_pdb_atoms_of_lines Py.int
           [example_atom_line; example_modres_line]).
  reflexivity.
Defined.

(** An atom after a [MODEL] line. *)
Lemma parse_pdb_models_witness :
  ∃ atoms modified,
    parse_pdb Py.int [example_model_line; example_atom_line]
    = inr (atoms, modified)
    ∧ ∀ atom, atom ∈ atoms →
        atom_model atom = 1
        ∨ ∃ line, line ∈ [example_model_line; example_atom_line]
                  ∧ model_of_line line = Some (atom_model atom).
Proof.
  eexists _, _. split; [reflexivity|].
  eapply (parse_pdb_models Py.int [example_model_line; example_atom_line]).
  reflexivity.
Defined.

(** A [REMARK] line before an atom line. *)
Lemma parse_pdb_ignored_line_witness :
  parse_pdb Py.int ([] ++ example_remark_line :: [example_atom_line])
  = parse_pdb Py.int ([] ++ [example_atom_line]).
Proof.
  apply (parse_pdb_ignored_line Py.int [] example_remark_line
           [example_atom_line]); reflexivity.
Defined.

(** An atom line of fourteen characters. *)
Lemma parse_pdb_malformed_line_witness :
  parse_pdb Py.int ([] ++ example_short_line :: [example_atom_line])
  = inl IndexError.
Proof.
  destruct (parse_pdb_malformed_line Py.int [] example_short_line
              [example_atom_line] ([], ∅) eq_refl) as [Hshort _].
  apply Hshort; [reflexivity|]. vm_compute. lia.
Defined.

(** The [MODRES] line of the residue [PSU] does not rename the atom of
    that residue. *)
Lemma parse_pdb_modres_never_applies_witness :
  ∃ atoms modified,
    parse_pdb Py.int [example_atom_line; example_modres_line]
    = inr (atoms, modified)
    ∧ ∀ atom a, atom ∈ atoms → atom_auth atom = Some a →
        get_residue_name (atom_auth atom) (atom_label atom) modified
        = auth_name a.
Proof.
  eexists _, _. split; [reflexivity|].
  eapply (parse_pdb_modres_never_applies Py.int
           [example_atom_line; example_modres_line]); [reflexivity|].
  intros line Hin _.
  apply elem_of_cons in Hin as [->|Hin%list_elem_of_singleton];
    [|subst line]; vm_compute; lia.
Defined.

(** The three rows of the complete atom table. *)
Lemma parse_cif_atoms_of_rows_witness :
  ∃ atoms modified,
    parse_cif Py.int (readFile example_cif) = inr (atoms, modified)
    ∧ Forall2 (atom_of_row Py.int) (atom_rows (readFile example_cif)) atoms
    ∧ length atoms = length (atom_rows (readFile example_cif)).
Proof.
  eexists _, _. split; [reflexivity|].
  eapply (parse_cif_atoms_of_rows Py.int (readFile example_cif)).
  reflexivity.
Defined.

(** A table without the model column. *)
Lemma parse_cif_default_model_witness :
  ∃ atoms modified,
    parse_cif Py.int [example_water_block] = inr (atoms, modified)
    ∧ Forall (λ atom, atom_model atom = 1) atoms.
Proof.
  eexists _, _. split; [reflexivity|].
  eapply (parse_cif_default_model Py.int example_water_block []
           example_water_table); [reflexivity| |reflexivity].
  intros Hin%list_elem_of_In. cbn in Hin. intuition discriminate.
Defined.

(** A block with a modified-residue table and no atom table. *)
Lemma parse_cif_missing_atom_site_witness :
  parse_cif Py.int [example_mod_only_block] = inl AttributeError.
Proof.
  destruct (parse_cif_missing_atom_site Py.int example_mod_only_block [])
    as (_ & _ & Hmissing).
  apply Hmissing. reflexivity.
Defined.

(** The modification table of a document whose atom table has neither
    the parent code nor the insertion code of the other table. *)
Lemma parse_cif_modified_unknown_witness :
  ∃ atoms modified,
    parse_cif Py.int [example_water_block] = inr (atoms, modified)
    ∧ ∀ key parent, modified !! key = Some parent → parent = "n".
Proof.
  eexists _, _. split; [reflexivity|].
  eapply (parse_cif_modified_unknown Py.int example_water_block []
           example_water_table); [reflexivity| |reflexivity].
  intros Hin%list_elem_of_In. cbn in Hin. intuition discriminate.
Defined.

(** A row with a complete auth scheme and the parent [U]. *)
Lemma parse_mod_row_resolves_witness :
  ∃ modified,
    parse_mod_row ∅ example_mod_row = inr modified
    ∧ ∀ label,
        get_residue_name (Some (mkResidueAuth "A" 5 "?" "PSU")) label
                         modified
        = Py.lower (default "n" (example_mod_row !! "parent_comp_id")).
Proof.
  eexists. split; [reflexivity|].
  apply (parse_mod_row_resolves ∅ example_mod_row _ "A" "5" 5 "PSU" "?");
    reflexivity.
Defined.

(** No entry of the payload is of model 2: the document itself is
    read. *)
Lemma select_model_first_match_witness :
  select_model (dssr_models example_dssr) 2 (dssr_toplevel example_dssr)
  = dssr_toplevel example_dssr.
Proof.
  apply (proj1 (select_model_first_match (dssr_models example_dssr) 2
                  (dssr_toplevel example_dssr))).
  repeat constructor. discriminate.
Defined.

(** The pair and the stacking of the payload join residues of the
    structure. *)
Lemma read_secondary_structure_residues_witness :
  ∃ structure2d,
    read_secondary_structure_from_dssr (Saenger:=unit)
      (StackingTopology:=unit) example_full_name example_members
      example_dunder example_structure 1 example_dssr = inr structure2d
    ∧ Forall (λ base_pair,
                bp_nt1 base_pair ∈ example_structure
                ∧ bp_nt2 base_pair ∈ example_structure
                ∧ (∃ code, example_members !! code = Some (bp_lw base_pair))
                ∧ bp_saenger base_pair = None)
             (base_pairs structure2d)
    ∧ Forall (λ stacking,
                st_nt1 stacking ∈ example_structure
                ∧ st_nt2 stacking ∈ example_structure
                ∧ st_topology stacking = None)
             (stackings structure2d).
Proof.
  eexists. split; [reflexivity|].
  apply (read_secondary_structure_residues example_full_name
           example_members example_dunder example_structure 1 example_dssr).
  reflexivity.
Defined.

(** The special name is the code of the second pair: the first pair is
    read, and the import raises all the same. *)
Lemma read_secondary_structure_errors_witness :
  read_secondary_structure_from_dssr (Saenger:=unit) (StackingTopology:=unit)
    example_full_name example_members example_dunder example_structure 1
    example_dssr_late_bad_code
  = inl (KeyError "__doc__").
Proof.
  apply (proj2 (read_secondary_structure_errors (Saenger:=unit)
                  (StackingTopology:=unit) example_full_name
                  example_members example_dunder example_structure 1
                  example_dssr_late_bad_code (KeyError "__doc__"))).
  exists [mkDssrPair (Some "A:1.A") (Some "A:1.G") (Some "cWW")],
    (mkDssrPair (Some "A:1.A") (Some "A:1.G") (Some "__doc__")), [],
    "__doc__".
  split_and!; [reflexivity| |reflexivity| |reflexivity|reflexivity].
  - apply Forall_singleton. intros lw [= <-] _. eexists. reflexivity.
  - apply list_elem_of_In. cbn. tauto.
Defined.

(** A payload without special names. *)
Lemma read_secondary_structure_lookup_miss_witness :
  read_secondary_structure_from_dssr (Saenger:=unit) (StackingTopology:=unit)
    example_full_name example_members example_dunder example_structure 1
    example_dssr
  = inr (mkStructure2D
           (omap (resolved_pair example_full_name example_members
                                example_structure)
                 (dssr_pairs
                    (select_model (dssr_models example_dssr) 1
                                  (dssr_toplevel example_dssr))))
           (concat (map (λ stack,
                           adjacent_resolved
                             (stack_nts example_full_name example_structure
                                        stack))
                        (dssr_stacks
                           (select_model (dssr_models example_dssr) 1
                                         (dssr_toplevel example_dssr)))))).
Proof.
  apply (read_secondary_structure_lookup_miss (Saenger:=unit)
           (StackingTopology:=unit) example_full_name example_members
           example_dunder example_structure 1 example_dssr).
  intros pair lw Hin%list_elem_of_singleton Hlw _. subst pair.
  injection Hlw as <-. eexists. reflexivity.
Defined.
